(** * Hit-rate evaluation and training-pair construction

    A shallow embedding of the two notebooks of the repository:

    - [evaluate.ipynb]: the function [evaluate] (one result record per
      query, hit flag = ground truth among the retrieved identifiers) and
      the aggregation cells ([df['is_hit'].mean()],
      [df_all.groupby('model').mean('is_hit')]);
    - [finetune.ipynb]: the cell that builds the list [examples] of
      (query text, document text) training pairs.

    Python dictionaries are association lists in insertion order, a raised
    exception is a value of [exception], floating-point results are exact
    rationals (or [nan]). *)

From Stdlib Require Import List String Bool Arith ZArith QArith Lia Permutation.
Import ListNotations.

Set Implicit Arguments.

(** ** Python values, exceptions and loops *)

Module Py.

Inductive exception : Type :=
| KeyError (key : string)
| IndexError.

Inductive result (A : Type) : Type :=
| Ok (a : A)
| Raise (e : exception).

Arguments Ok {A} a.
Arguments Raise {A} e.

Definition bind {A B : Type} (m : result A) (f : A -> result B) : result B :=
  match m with
  | Ok a => f a
  | Raise e => Raise e
  end.

(** A [dict] keeps its items in insertion order, as [json.load] builds it. *)
Definition dict (V : Type) : Type := list (string * V).

Definition items {V : Type} (d : dict V) : list (string * V) := d.

Definition keys {V : Type} (d : dict V) : list string := map fst d.

Fixpoint get {V : Type} (d : dict V) (k : string) : option V :=
  match d with
  | [] => None
  | (k', v) :: d' => if String.eqb k k' then Some v else get d' k
  end.

(** [d[k]]: raises [KeyError] on a missing key. *)
Definition getitem {V : Type} (d : dict V) (k : string) : result V :=
  match get d k with
  | Some v => Ok v
  | None => Raise (KeyError k)
  end.

(** [l[0]]: raises [IndexError] on an empty list. *)
Definition getitem0 {A : Type} (l : list A) : result A :=
  match l with
  | x :: _ => Ok x
  | [] => Raise IndexError
  end.

(** [x in l] on a list of strings. *)
Definition contains (x : string) (l : list string) : bool :=
  existsb (String.eqb x) l.

(** [for x in xs: body], threading the state the body mutates.  The loop
    stops at the first exception; the state is then the one reached before
    the failing iteration, and the exception is reported next to it. *)
Fixpoint for_each {A S : Type} (body : A -> S -> result S)
         (xs : list A) (s : S) : S * option exception :=
  match xs with
  | [] => (s, None)
  | x :: xs' =>
      match body x s with
      | Ok s' => for_each body xs' s'
      | Raise e => (s, Some e)
      end
  end.

(** A Python float: an exact rational here, or [nan]. *)
Inductive float : Type :=
| nan
| fl (q : Q).

End Py.

Import Py.

Notation "x <- m ;; k" := (bind m (fun x => k))
  (at level 61, m at next level, right associativity).

(** ** The retrieval index (external collaborator) *)

Module LlamaIndex.

Definition embedding : Type := list Q.

(** Modelled from the spec: the embedding provider, which is not code of the
    notebooks.  It maps a text to a numeric vector; the similarity metric of
    the index is implementation-defined, so it is a field of the provider.
    The record describes a provider that answers: a provider that cannot be
    reached makes the index construction or the retrieval raise before any
    dictionary is read, and such runs are outside this model. *)
Record embed_model : Type := {
  get_text_embedding : string -> embedding;
  similarity : embedding -> embedding -> Q
}.

Record TextNode : Type := { node_id : string; text : string }.

Record NodeWithScore : Type := { node : TextNode; score : Q }.

(** Modelled from the spec: the index embeds every corpus document once and
    keeps the vector next to its node. *)
Record VectorStoreIndex : Type := {
  service_context : embed_model;
  index_struct : list (TextNode * embedding)
}.

Definition build_index (nodes : list TextNode) (m : embed_model)
  : VectorStoreIndex :=
  {| service_context := m;
     index_struct := map (fun n => (n, get_text_embedding m (text n))) nodes |}.

Record retriever : Type := {
  index : VectorStoreIndex;
  similarity_top_k : Z
}.

Definition as_retriever (i : VectorStoreIndex) (top_k : Z) : retriever :=
  {| index := i; similarity_top_k := top_k |}.

(** Ranking by decreasing score; among equal scores the corpus order is
    kept. *)
Fixpoint insert_by_score (x : NodeWithScore) (l : list NodeWithScore)
  : list NodeWithScore :=
  match l with
  | [] => [x]
  | y :: l' =>
      if Qle_bool (score y) (score x) then x :: y :: l'
      else y :: insert_by_score x l'
  end.

Definition rank (l : list NodeWithScore) : list NodeWithScore :=
  fold_right insert_by_score [] l.

(** Modelled from the spec: embed the query text and return the k indexed
    nodes whose embeddings are nearest under the similarity metric.  The
    limit is any Python integer and is not checked: as the index treats it,
    [similarity_top_k = 0] puts no limit (every indexed node is returned,
    ranked) and a negative value keeps no node. *)
Definition retrieve (r : retriever) (query : string) : list NodeWithScore :=
  let m := service_context (index r) in
  let q := get_text_embedding m query in
  let scored :=
    map (fun ne => {| node := fst ne; score := similarity m q (snd ne) |})
        (index_struct (index r)) in
  if (similarity_top_k r =? 0)%Z then rank scored
  else if (similarity_top_k r <? 0)%Z then []
  else firstn (Z.to_nat (similarity_top_k r)) (rank scored).

End LlamaIndex.

Import LlamaIndex.

(** ** The dataset *)

Record dataset : Type := {
  corpus : dict string;
  queries : dict string;
  relevant_docs : dict (list string)
}.

(** ** [evaluate.ipynb]: the hit-rate evaluator *)

Module Evaluate.

(** The dictionary literal [eval_result] has four fixed keys. *)
Record eval_result : Type := {
  is_hit : bool;
  retrieved : list string;
  expected : string;
  query : string
}.

Definition default_top_k : Z := 5.

(** The body of the loop over [queries.items()]. *)
Definition evaluate_step (r : retriever) (relevant_docs : dict (list string))
           (item : string * string) (eval_results : list eval_result)
  : result (list eval_result) :=
  let '(query_id, query) := item in
  let retrieved_nodes := retrieve r query in
  let retrieved_ids := map (fun n => node_id (node n)) retrieved_nodes in
  docs <- getitem relevant_docs query_id ;;
  expected_id <- getitem0 docs ;;
  let is_hit := contains expected_id retrieved_ids in
  let eval_result :=
    {| is_hit := is_hit;
       retrieved := retrieved_ids;
       expected := expected_id;
       query := query_id |} in
  Ok (eval_results ++ [eval_result]).

Definition evaluate (dataset : dataset) (embed_model : embed_model)
           (top_k : Z) (verbose : bool) : result (list eval_result) :=
  let corpus := corpus dataset in
  let queries := queries dataset in
  let relevant_docs := relevant_docs dataset in
  let nodes :=
    map (fun it => {| node_id := fst it; text := snd it |}) (items corpus) in
  let index := build_index nodes embed_model in
  let retriever := as_retriever index top_k in
  match for_each (evaluate_step retriever relevant_docs) (items queries) [] with
  | (eval_results, None) => Ok eval_results
  | (_, Some e) => Raise e
  end.

End Evaluate.

(** ** [evaluate.ipynb]: the aggregation cells *)

Module Pandas.

Import Evaluate.

(** A row of the frames of the notebook: a result record and, once the
    column ['model'] has been assigned, its label. *)
Record row : Type := { record : eval_result; model : option string }.

Record DataFrame : Type := { columns : list string; rows : list row }.

(** [pd.DataFrame(records)]: the columns are the keys of the records, so a
    frame built from no record has no column at all. *)
Definition from_records (records : list eval_result) : DataFrame :=
  {| columns :=
       match records with
       | [] => []
       | _ :: _ => ["is_hit"; "retrieved"; "expected"; "query"]%string
       end;
     rows := map (fun r => {| record := r; model := None |}) records |}.

(** [df['is_hit']] *)
Definition column_is_hit (df : DataFrame) : result (list bool) :=
  if contains "is_hit" (columns df)
  then Ok (map (fun r => is_hit (record r)) (rows df))
  else Raise (KeyError "is_hit").

(** [Series.mean()] of a boolean column: [True] counts 1, [False] 0; the
    mean of an empty column is [nan]. *)
Definition sum (s : list bool) : Z :=
  fold_left (fun acc (b : bool) => if b then (acc + 1)%Z else acc) s 0%Z.

Definition mean (s : list bool) : float :=
  match s with
  | [] => nan
  | _ :: _ => fl (inject_Z (sum s) / inject_Z (Z.of_nat (List.length s)))
  end.

(** [df['model'] = label] *)
Definition set_model (df : DataFrame) (label : string) : DataFrame :=
  {| columns :=
       if contains "model" (columns df) then columns df
       else columns df ++ ["model"%string];
     rows := map (fun r => {| record := record r; model := Some label |})
                 (rows df) |}.

(** [pd.concat(dfs)]: the rows one frame after the other, the columns in
    order of first appearance. *)
Definition add_column (cols : list string) (c : string) : list string :=
  if contains c cols then cols else cols ++ [c].

Definition concat (dfs : list DataFrame) : DataFrame :=
  {| columns := fold_left (fun cols df => fold_left add_column (columns df) cols)
                          dfs [];
     rows := flat_map rows dfs |}.

(** [df.groupby('model')]: the hit flags of each label, in row order; rows
    without a label are dropped; the groups come sorted by label. *)
Fixpoint add_to_group (k : string) (v : bool) (groups : list (string * list bool))
  : list (string * list bool) :=
  match groups with
  | [] => [(k, [v])]
  | (k', vs) :: rest =>
      if String.eqb k k' then (k', vs ++ [v]) :: rest
      else (k', vs) :: add_to_group k v rest
  end.

Definition group_step (groups : list (string * list bool)) (r : row)
  : list (string * list bool) :=
  match model r with
  | Some k => add_to_group k (is_hit (record r)) groups
  | None => groups
  end.

Fixpoint insert_by_key (g : string * list bool) (l : list (string * list bool))
  : list (string * list bool) :=
  match l with
  | [] => [g]
  | h :: l' =>
      if String.leb (fst g) (fst h) then g :: h :: l'
      else h :: insert_by_key g l'
  end.

Definition sort_groups (l : list (string * list bool))
  : list (string * list bool) :=
  fold_right insert_by_key [] l.

Definition groupby_model (df : DataFrame) : result (list (string * list bool)) :=
  if contains "model" (columns df)
  then Ok (sort_groups (fold_left group_step (rows df) []))
  else Raise (KeyError "model").

(** [df.groupby('model').mean('is_hit')]: one scalar per label. *)
Definition groupby_model_mean (df : DataFrame) : result (list (string * float)) :=
  groups <- groupby_model df ;;
  Ok (map (fun g => (fst g, mean (snd g))) groups).

(** [hit_rate = pd.DataFrame(val_results)['is_hit'].mean()] *)
Definition hit_rate (val_results : list eval_result) : result float :=
  let df := from_records val_results in
  s <- column_is_hit df ;;
  Ok (mean s).

(** The summary cell: label the three frames, concatenate, group. *)
Definition df_all (ada_val_results bge_val_results val_results_finetuned
                   : list eval_result) : DataFrame :=
  let df_ada := set_model (from_records ada_val_results) "ada" in
  let df_bge := set_model (from_records bge_val_results) "bge" in
  let df_finetuned :=
    set_model (from_records val_results_finetuned) "fine_tuned" in
  concat [df_ada; df_bge; df_finetuned].

End Pandas.

(** ** [finetune.ipynb]: the training pairs *)

Module Finetune.

Record InputExample : Type := { texts : list string }.

(** The body of the loop over [queries.items()]. *)
Definition examples_step (corpus : dict string)
           (relevant_docs : dict (list string))
           (item : string * string) (examples : list InputExample)
  : result (list InputExample) :=
  let '(query_id, query) := item in
  docs <- getitem relevant_docs query_id ;;
  node_id <- getitem0 docs ;;
  text <- getitem corpus node_id ;;
  let example := {| texts := [query; text] |} in
  Ok (examples ++ [example]).

(** The cell runs at top level: when an iteration raises, the global list
    [examples] keeps what the earlier iterations appended. *)
Definition examples_cell (dataset : dataset)
  : list InputExample * option exception :=
  let corpus := corpus dataset in
  let queries := queries dataset in
  let relevant_docs := relevant_docs dataset in
  for_each (examples_step corpus relevant_docs) (items queries) [].

Definition examples (dataset : dataset) : list InputExample :=
  fst (examples_cell dataset).

End Finetune.

(** ** Notions used to state the properties *)

Module Spec.

Import Evaluate.

(** The ground truth of a query: the first element of its entry in
    [relevant_docs], when the entry exists and is not empty. *)
Definition ground_truth (relevant_docs : dict (list string))
           (query_id : string) : option string :=
  match get relevant_docs query_id with
  | Some (d :: _) => Some d
  | _ => None
  end.

(** Every query of [its] has a ground truth. *)
Definition with_ground_truth (relevant_docs : dict (list string))
           (its : list (string * string)) : bool :=
  forallb (fun it => match ground_truth relevant_docs (fst it) with
                     | Some _ => true
                     | None => false
                     end)
          its.

Definition has_ground_truth (ds : dataset) : bool :=
  with_ground_truth (relevant_docs ds) (items (queries ds)).

(** The ground truth of [query_id] names a corpus document. *)
Definition has_document (corpus : dict string)
           (relevant_docs : dict (list string)) (query_id : string) : bool :=
  match ground_truth relevant_docs query_id with
  | Some d => match get corpus d with Some _ => true | None => false end
  | None => false
  end.

Definition with_documents (corpus : dict string)
           (relevant_docs : dict (list string))
           (its : list (string * string)) : bool :=
  forallb (fun it => has_document corpus relevant_docs (fst it)) its.

Definition has_documents (ds : dataset) : bool :=
  with_documents (corpus ds) (relevant_docs ds) (items (queries ds)).

(** The retriever [evaluate] builds for a dataset, and the identifiers it
    returns for a query text. *)
Definition retriever_of (ds : dataset) (m : embed_model) (top_k : Z)
  : retriever :=
  as_retriever
    (build_index
       (map (fun it => {| node_id := fst it; text := snd it |})
            (items (corpus ds))) m)
    top_k.

Definition retrieved_ids (ds : dataset) (m : embed_model) (top_k : Z)
           (query : string) : list string :=
  map (fun n => node_id (node n)) (retrieve (retriever_of ds m top_k) query).

(** What one iteration computes before it appends. *)
Definition record_for (r : retriever) (relevant_docs : dict (list string))
           (item : string * string) : result eval_result :=
  docs <- getitem relevant_docs (fst item) ;;
  expected_id <- getitem0 docs ;;
  let ids := map (fun n => node_id (node n)) (retrieve r (snd item)) in
  Ok {| is_hit := contains expected_id ids;
        retrieved := ids;
        expected := expected_id;
        query := fst item |}.

Definition pair_for (corpus : dict string) (relevant_docs : dict (list string))
           (item : string * string) : result Finetune.InputExample :=
  docs <- getitem relevant_docs (fst item) ;;
  node_id <- getitem0 docs ;;
  text <- getitem corpus node_id ;;
  Ok {| Finetune.texts := [snd item; text] |}.

(** A loop whose body appends [f x] to the state. *)
Definition append_step {A B : Type} (f : A -> result B)
           (x : A) (s : list B) : result (list B) :=
  b <- f x ;; Ok (s ++ [b]).

(** The values [f] yields up to its first exception, and that exception. *)
Fixpoint collect {A B : Type} (f : A -> result B) (xs : list A)
  : list B * option exception :=
  match xs with
  | [] => ([], None)
  | x :: xs' =>
      match f x with
      | Ok b => let (bs, e) := collect f xs' in (b :: bs, e)
      | Raise e => ([], Some e)
      end
  end.

(** The hit flags of the rows labelled [label]. *)
Definition flags_of (label : string) (rows : list Pandas.row) : list bool :=
  map (fun r => is_hit (Pandas.record r))
      (filter (fun r => match Pandas.model r with
                        | Some k => String.eqb label k
                        | None => false
                        end) rows).

(** The rows of a frame built from [results] and labelled [label]. *)
Definition labelled (label : string) (results : list eval_result)
  : list Pandas.row :=
  map (fun r => {| Pandas.record := r; Pandas.model := Some label |}) results.

(** The number of records whose hit flag is true. *)
Definition hits (results : list eval_result) : nat :=
  List.length (filter is_hit results).

End Spec.

(** ** Concrete data used to exercise the definitions *)

Module Samples.

Local Open Scope string_scope.

(** A provider that embeds a text as its length; similarity is the product
    of the two lengths, so longer documents rank first. *)
Definition length_model : embed_model :=
  {| get_text_embedding := fun s => [inject_Z (Z.of_nat (String.length s))];
     similarity := fun a b =>
       match a, b with
       | x :: _, y :: _ => (x * y)%Q
       | _, _ => 0%Q
       end |}.

Definition cats_corpus : dict string :=
  [("d1", "cats are mammals"); ("d2", "stocks rose today")].

Definition cats : dataset :=
  {| corpus := cats_corpus;
     queries := [("q1", "what kind of animal is a cat"); ("q2", "stocks")];
     relevant_docs := [("q1", ["d1"; "d2"]); ("q2", ["d2"])] |}.

(** The ground truth of [q1] is not a corpus identifier. *)
Definition cats_absent : dataset :=
  {| corpus := cats_corpus;
     queries := [("q1", "what kind of animal is a cat"); ("q2", "stocks")];
     relevant_docs := [("q1", ["d3"]); ("q2", ["d2"])] |}.

(** [q2] has no entry in [relevant_docs]. *)
Definition cats_missing : dataset :=
  {| corpus := cats_corpus;
     queries := [("q1", "what kind of animal is a cat"); ("q2", "stocks");
                 ("q3", "mammals")];
     relevant_docs := [("q1", ["d1"]); ("q3", ["d1"])] |}.

Definition no_queries : dataset :=
  {| corpus := cats_corpus; queries := []; relevant_docs := [] |}.

(** The entry of [q2] in [relevant_docs] is the empty list. *)
Definition cats_empty_entry : dataset :=
  {| corpus := cats_corpus;
     queries := [("q1", "what kind of animal is a cat"); ("q2", "stocks");
                 ("q3", "mammals")];
     relevant_docs := [("q1", ["d1"]); ("q2", []); ("q3", ["d1"])] |}.

End Samples.

Import Evaluate Pandas Finetune Spec Samples.

Local Open Scope nat_scope.

(** ** Loops that append *)

Section Loops.

Context {A B : Type} (f : A -> result B).

Lemma for_each_ext (S : Type) (body1 body2 : A -> S -> result S) xs s :
  (forall x s', body1 x s' = body2 x s') ->
  for_each body1 xs s = for_each body2 xs s.
Proof.
  intros Hext. revert s.
  induction xs as [|x xs IH]; intros s; simpl; [reflexivity|].
  rewrite Hext. destruct (body2 x s); auto.
Qed.

Lemma for_each_append_step xs acc :
  for_each (append_step f) xs acc
  = (acc ++ fst (collect f xs), snd (collect f xs)).
Proof.
  revert acc.
  induction xs as [|x xs IH]; intros acc; simpl.
  - now rewrite app_nil_r.
  - unfold append_step at 1. destruct (f x) as [b|e]; simpl.
    + rewrite IH. destruct (collect f xs) as [bs e']; simpl.
      now rewrite <- app_assoc.
    + now rewrite app_nil_r.
Qed.

Lemma collect_ok xs bs :
  collect f xs = (bs, None) -> Forall2 (fun x b => f x = Ok b) xs bs.
Proof.
  revert bs.
  induction xs as [|x xs IH]; intros bs; simpl.
  - intros [= <-]. constructor.
  - destruct (f x) as [b|e] eqn:Hfx; [|discriminate].
    destruct (collect f xs) as [bs' e'].
    intros [= <- ->]. constructor; auto.
Qed.

Lemma collect_total xs :
  Forall (fun x => exists b, f x = Ok b) xs ->
  exists bs, collect f xs = (bs, None).
Proof.
  induction 1 as [|x xs [b Hb] _ [bs IH]]; simpl.
  - now exists [].
  - rewrite Hb, IH. now exists (b :: bs).
Qed.

Lemma collect_raises pre x post e :
  Forall (fun x => exists b, f x = Ok b) pre ->
  f x = Raise e ->
  exists bs, collect f (pre ++ x :: post) = (bs, Some e)
             /\ Forall2 (fun x b => f x = Ok b) pre bs.
Proof.
  intros Hpre Hx.
  induction Hpre as [|y pre [b Hb] _ [bs [IH1 IH2]]]; simpl.
  - rewrite Hx. exists []. split; [reflexivity|constructor].
  - rewrite Hb, IH1. exists (b :: bs). split; [reflexivity|].
    constructor; assumption.
Qed.

Lemma collect_some_raise xs x e :
  In x xs -> f x = Raise e -> exists e', snd (collect f xs) = Some e'.
Proof.
  intros Hin Hx.
  induction xs as [|y xs IH]; simpl in *; [contradiction|].
  destruct (f y) as [b|e0] eqn:Hy.
  - destruct Hin as [->|Hin]; [congruence|].
    destruct (IH Hin) as [e' He'].
    destruct (collect f xs) as [bs e1]; simpl in *. now exists e'.
  - now exists e0.
Qed.

End Loops.

Lemma Forall2_nth_error_l {A B : Type} (R : A -> B -> Prop) xs ys i x :
  Forall2 R xs ys -> nth_error xs i = Some x ->
  exists y, nth_error ys i = Some y /\ R x y.
Proof.
  intros H. revert i.
  induction H as [|x0 y0 xs ys Hxy _ IH]; intros [|i]; simpl;
    try discriminate.
  - intros [= <-]. now exists y0.
  - apply IH.
Qed.

(** ** The retriever *)

Lemma insert_by_score_perm x l : Permutation (insert_by_score x l) (x :: l).
Proof.
  induction l as [|y l IH]; simpl; [reflexivity|].
  destruct (Qle_bool (score y) (score x)); [reflexivity|].
  rewrite IH. apply perm_swap.
Qed.

Lemma rank_perm l : Permutation (rank l) l.
Proof.
  induction l as [|x l IH]; simpl; [constructor|].
  rewrite insert_by_score_perm. now constructor.
Qed.

(** The retrieved identifiers are cut out of one ranking of the corpus
    identifiers: all of it when [top_k] is 0, nothing when [top_k] is
    negative, its first [top_k] entries otherwise. *)
Lemma retrieved_ids_prefix ds m q :
  exists ranking,
    Permutation ranking (keys (corpus ds))
    /\ forall k,
        retrieved_ids ds m k q
        = if (k =? 0)%Z then ranking
          else if (k <? 0)%Z then []
          else firstn (Z.to_nat k) ranking.
Proof.
  unfold retrieved_ids, retrieve, retriever_of, as_retriever, build_index.
  cbn [index service_context index_struct similarity_top_k].
  match goal with
  | |- context [firstn _ (rank ?s)] => set (scored := s)
  end.
  exists (map (fun n => node_id (node n)) (rank scored)). split.
  - rewrite (rank_perm scored). subst scored.
    unfold keys, items. rewrite !map_map. cbn. reflexivity.
  - intros k. destruct (k =? 0)%Z; [reflexivity|].
    destruct (k <? 0)%Z; [reflexivity|]. now rewrite firstn_map.
Qed.

Lemma firstn_In_le {A : Type} (x : A) l k1 k2 :
  k1 <= k2 -> In x (firstn k1 l) -> In x (firstn k2 l).
Proof.
  revert k1 k2.
  induction l as [|y l IH]; intros [|k1] [|k2] Hle; simpl; try tauto; try lia.
  intros [->|H]; [now left|right].
  apply (IH k1 k2); [lia|assumption].
Qed.

Lemma firstn_In {A : Type} (x : A) l k : In x (firstn k l) -> In x l.
Proof.
  intros H. rewrite <- (firstn_skipn k l). apply in_or_app. now left.
Qed.

Lemma retrieved_ids_mono ds m q k1 k2 x :
  (k1 <= k2)%Z -> k1 <> 0%Z ->
  In x (retrieved_ids ds m k1 q) -> In x (retrieved_ids ds m k2 q).
Proof.
  intros Hle Hk1.
  destruct (retrieved_ids_prefix ds m q) as [l [_ Hl]].
  rewrite !Hl.
  destruct (Z.eqb_spec k1 0) as [|_]; [contradiction|].
  destruct (Z.ltb_spec k1 0) as [|Hpos1]; [contradiction|].
  destruct (Z.eqb_spec k2 0) as [|_]; [apply firstn_In|].
  destruct (Z.ltb_spec k2 0) as [|_]; [lia|].
  apply firstn_In_le. lia.
Qed.

Lemma retrieved_ids_in_corpus ds m k q x :
  In x (retrieved_ids ds m k q) -> In x (keys (corpus ds)).
Proof.
  destruct (retrieved_ids_prefix ds m q) as [l [Hp Hl]].
  rewrite Hl. intros H. apply (Permutation_in _ Hp).
  destruct (k =? 0)%Z; [assumption|].
  destruct (k <? 0)%Z; [contradiction|].
  eapply firstn_In; eassumption.
Qed.

Lemma retrieved_ids_length ds m k q :
  List.length (retrieved_ids ds m k q)
  = if (k =? 0)%Z then List.length (corpus ds)
    else if (k <? 0)%Z then 0
    else Nat.min (Z.to_nat k) (List.length (corpus ds)).
Proof.
  destruct (retrieved_ids_prefix ds m q) as [l [Hp Hl]].
  rewrite Hl.
  assert (Hlen : List.length l = List.length (corpus ds))
    by (rewrite (Permutation_length Hp); unfold keys; apply length_map).
  destruct (k =? 0)%Z; [assumption|].
  destruct (k <? 0)%Z; [reflexivity|].
  now rewrite length_firstn, Hlen.
Qed.

Lemma contains_In x l : contains x l = true <-> In x l.
Proof.
  unfold contains. rewrite existsb_exists. split.
  - intros [y [Hy Heq]]. apply String.eqb_eq in Heq. now subst.
  - intros H. exists x. split; [assumption|apply String.eqb_refl].
Qed.

(** ** The evaluator as a collection of per-query records *)

Lemma evaluate_step_append r rd item acc :
  evaluate_step r rd item acc = append_step (record_for r rd) item acc.
Proof.
  destruct item as [query_id query].
  unfold evaluate_step, append_step, record_for; simpl.
  destruct (getitem rd query_id) as [docs|e]; simpl; [|reflexivity].
  destruct (getitem0 docs); reflexivity.
Qed.

Lemma evaluate_collect ds m k v :
  evaluate ds m k v
  = match collect (record_for (retriever_of ds m k) (relevant_docs ds))
                  (items (queries ds)) with
    | (rs, None) => Ok rs
    | (_, Some e) => Raise e
    end.
Proof.
  unfold evaluate. fold (retriever_of ds m k).
  rewrite for_each_ext
    with (body2 := append_step (record_for (retriever_of ds m k)
                                           (relevant_docs ds)))
    by (intros; apply evaluate_step_append).
  rewrite for_each_append_step.
  destruct (collect _ _) as [rs [e|]]; reflexivity.
Qed.

Lemma record_for_ground_truth r rd item d :
  ground_truth rd (fst item) = Some d ->
  record_for r rd item
  = Ok {| is_hit := contains d (map (fun n => node_id (node n))
                                     (retrieve r (snd item)));
          retrieved := map (fun n => node_id (node n)) (retrieve r (snd item));
          expected := d;
          query := fst item |}.
Proof.
  unfold ground_truth, record_for, getitem.
  destruct (get rd (fst item)) as [[|d' rest]|]; try discriminate.
  now intros [= ->].
Qed.

Lemma record_for_inv r rd item rec :
  record_for r rd item = Ok rec ->
  exists d rest, get rd (fst item) = Some (d :: rest)
                 /\ ground_truth rd (fst item) = Some d
                 /\ record_for r rd item
                    = Ok {| is_hit := contains d (map (fun n => node_id (node n))
                                     (retrieve r (snd item)));
          retrieved := map (fun n => node_id (node n)) (retrieve r (snd item));
          expected := d;
          query := fst item |}.
Proof.
  intros H.
  destruct (get rd (fst item)) as [[|d rest]|] eqn:Hget.
  - unfold record_for, getitem in H. rewrite Hget in H. discriminate.
  - exists d, rest. split; [reflexivity|].
    assert (Hgt : ground_truth rd (fst item) = Some d)
      by (unfold ground_truth; now rewrite Hget).
    split; [assumption|]. now apply record_for_ground_truth.
  - unfold record_for, getitem in H. rewrite Hget in H. discriminate.
Qed.

Lemma with_ground_truth_Forall rd r its :
  with_ground_truth rd its = true ->
  Forall (fun it => exists rec, record_for r rd it = Ok rec) its.
Proof.
  unfold with_ground_truth. rewrite forallb_forall, Forall_forall.
  intros H it Hin. specialize (H it Hin).
  destruct (ground_truth rd (fst it)) as [d|] eqn:Hgt; [|discriminate].
  eexists. apply record_for_ground_truth. eassumption.
Qed.

Lemma has_ground_truth_Forall ds r :
  has_ground_truth ds = true ->
  Forall (fun it => exists rec, record_for r (relevant_docs ds) it = Ok rec)
         (items (queries ds)).
Proof. apply with_ground_truth_Forall. Qed.

(** The evaluator returns exactly when every query has a ground truth. *)
Lemma evaluate_returns ds m k v :
  has_ground_truth ds = true ->
  exists results,
    evaluate ds m k v = Ok results
    /\ Forall2 (fun it rec =>
                  record_for (retriever_of ds m k) (relevant_docs ds) it = Ok rec)
               (items (queries ds)) results.
Proof.
  intros Hwf. rewrite evaluate_collect.
  destruct (collect_total _ (has_ground_truth_Forall ds (retriever_of ds m k) Hwf))
    as [rs Hrs].
  rewrite Hrs. exists rs. split; [reflexivity|].
  now apply collect_ok.
Qed.

Lemma collect_ext_in {A B : Type} (f g : A -> result B) xs :
  (forall x, In x xs -> f x = g x) -> collect f xs = collect g xs.
Proof.
  induction xs as [|x xs IH]; intros H; simpl; [reflexivity|].
  rewrite <- (H x) by now left.
  rewrite IH by (intros; apply H; now right). reflexivity.
Qed.

Lemma evaluate_ok_has_ground_truth ds m k v results :
  evaluate ds m k v = Ok results -> has_ground_truth ds = true.
Proof.
  rewrite evaluate_collect.
  destruct (collect _ _) as [rs [e|]] eqn:Hc; [discriminate|]. intros _.
  apply collect_ok in Hc.
  unfold has_ground_truth, with_ground_truth.
  apply forallb_forall. intros it Hin.
  destruct (In_nth_error _ _ Hin) as [i Hi].
  destruct (Forall2_nth_error_l _ Hc Hi) as [rec [_ Hrec]].
  destruct (record_for_inv _ _ _ Hrec) as [d [rest [_ [Hgt _]]]].
  now rewrite Hgt.
Qed.

(** ** Properties of the hit-rate evaluator *)

(** C1.  When every query has a ground truth the evaluator returns, and the
    record at the position of a query carries that query's identifier, the
    first element of its [relevant_docs] entry as [expected], the identifiers
    retrieved for its text, and a hit flag that is true exactly when the
    expected identifier occurs among the retrieved ones.  Only the first
    element is read: any other [relevant_docs] mapping with the same first
    elements gives the same records. *)
Theorem evaluate_hit_iff_first_relevant ds m k v :
  has_ground_truth ds = true ->
  exists results,
    evaluate ds m k v = Ok results
    /\ (forall i query_id q,
           nth_error (items (queries ds)) i = Some (query_id, q) ->
           exists r d rest,
             nth_error results i = Some r
             /\ get (relevant_docs ds) query_id = Some (d :: rest)
             /\ query r = query_id
             /\ expected r = d
             /\ retrieved r = retrieved_ids ds m k q
             /\ (is_hit r = true <-> In d (retrieved r)))
    /\ (forall rd',
           (forall query_id q,
               In (query_id, q) (items (queries ds)) ->
               ground_truth rd' query_id
               = ground_truth (relevant_docs ds) query_id) ->
           evaluate {| corpus := corpus ds;
                       queries := queries ds;
                       relevant_docs := rd' |} m k v = Ok results).
Proof.
  intros Hwf.
  destruct (evaluate_returns ds m k v Hwf) as [results [Hev Hrec]].
  exists results. split; [assumption|]. split.
  - intros i query_id q Hi.
    destruct (Forall2_nth_error_l _ Hrec Hi) as [r [Hr Hq]].
    destruct (record_for_inv _ _ _ Hq) as [d [rest [Hget [_ Heq]]]].
    rewrite Heq in Hq. injection Hq as <-.
    cbn [fst snd] in *.
    eexists; exists d, rest.
    split; [exact Hr|]. split; [exact Hget|].
    cbn [query expected retrieved is_hit].
    repeat split; apply contains_In; assumption.
  - intros rd' Hagree.
    rewrite evaluate_collect in *. cbn [corpus queries relevant_docs].
    change (retriever_of _ m k) with (retriever_of ds m k).
    rewrite collect_ext_in
      with (g := record_for (retriever_of ds m k) (relevant_docs ds));
      [assumption|].
    intros [query_id q] Hin.
    pose proof (has_ground_truth_Forall ds (retriever_of ds m k) Hwf) as Hall.
    rewrite Forall_forall in Hall. destruct (Hall _ Hin) as [rec Hrec'].
    destruct (record_for_inv _ _ _ Hrec') as [d [rest [_ [Hgt ->]]]].
    apply record_for_ground_truth. cbn [fst] in *.
    now rewrite (Hagree _ _ Hin).
Qed.

Lemma evaluate_hit_iff_first_relevant_witness :
  has_ground_truth cats = true
  /\ exists results, evaluate cats length_model 1 false = Ok results.
Proof.
  split; [reflexivity|].
  destruct (evaluate_hit_iff_first_relevant cats length_model 1 false eq_refl)
    as [results [H _]].
  exists results. exact H.
Defined.

Lemma Forall2_length_map {A B C : Type} (R : A -> B -> Prop)
      (f : A -> C) (g : B -> C) xs ys :
  Forall2 R xs ys -> (forall x y, R x y -> g y = f x) ->
  List.length ys = List.length xs /\ map g ys = map f xs.
Proof.
  intros H Hfg. induction H as [|x y xs ys Hxy _ [IH1 IH2]]; simpl.
  - now split.
  - rewrite IH1, IH2, (Hfg _ _ Hxy). now split.
Qed.

(** C2.  On a dataset where every query has a ground truth the evaluator
    returns as many records as there are queries, one per query in the
    iteration order of [queries]: the [query] fields of the records are the
    keys of [queries], in order. *)
Theorem evaluate_one_record_per_query ds m k v :
  has_ground_truth ds = true ->
  exists results,
    evaluate ds m k v = Ok results
    /\ List.length results = List.length (items (queries ds))
    /\ map query results = keys (queries ds)
    /\ Forall (fun r => In (query r) (keys (queries ds))) results.
Proof.
  intros Hwf.
  destruct (evaluate_returns ds m k v Hwf) as [results [Hev Hrec]].
  exists results. split; [assumption|].
  assert (H : List.length results = List.length (items (queries ds))
              /\ map query results = map fst (items (queries ds))).
  { apply (Forall2_length_map _ _ Hrec).
    intros it rec Hit.
    destruct (record_for_inv _ _ _ Hit) as [d [rest [_ [_ Heq]]]].
    rewrite Heq in Hit. now injection Hit as <-. }
  destruct H as [Hlen Hmap]. repeat split; try assumption.
  apply Forall_forall. intros r Hr. unfold keys, items in *.
  rewrite <- Hmap. now apply in_map.
Qed.

Lemma evaluate_one_record_per_query_witness :
  has_ground_truth cats = true
  /\ exists results,
      evaluate cats length_model 5 false = Ok results
      /\ List.length results = 2.
Proof.
  split; [reflexivity|].
  destruct (evaluate_one_record_per_query cats length_model 5 false eq_refl)
    as [results [H1 [H2 _]]].
  exists results. split; [exact H1|exact H2].
Defined.

Lemma record_for_missing r rd item :
  get rd (fst item) = None -> record_for r rd item = Raise (KeyError (fst item)).
Proof.
  intros H. unfold record_for, getitem. now rewrite H.
Qed.

(** C4.  A query whose identifier has no entry in [relevant_docs] makes the
    evaluator raise: no result sequence is returned.  When the queries before
    it all have a ground truth, the loop reaches it and the exception is the
    [KeyError] on that identifier. *)
Theorem evaluate_missing_ground_truth_raises ds m k v query_id q :
  In (query_id, q) (items (queries ds)) ->
  get (relevant_docs ds) query_id = None ->
  (exists e, evaluate ds m k v = Raise e)
  /\ (forall pre post,
         items (queries ds) = pre ++ (query_id, q) :: post ->
         with_ground_truth (relevant_docs ds) pre = true ->
         evaluate ds m k v = Raise (KeyError query_id)).
Proof.
  intros Hin Hget.
  pose proof (record_for_missing (retriever_of ds m k) (relevant_docs ds)
                                 (query_id, q) Hget) as Hraise.
  split.
  - rewrite evaluate_collect.
    destruct (collect_some_raise _ _ _ Hin Hraise) as [e He].
    destruct (collect _ _) as [rs e']; simpl in He. subst e'. now exists e.
  - intros pre post Hsplit Hpre.
    rewrite evaluate_collect, Hsplit.
    destruct (@collect_raises _ _ (record_for (retriever_of ds m k)
                                              (relevant_docs ds))
                pre (query_id, q) post _
                (@with_ground_truth_Forall _ _ _ Hpre) Hraise)
      as [bs [Hc _]].
    now rewrite Hc.
Qed.

Lemma evaluate_missing_ground_truth_raises_witness :
  In ("q2", "stocks")%string (items (queries cats_missing))
  /\ get (relevant_docs cats_missing) "q2" = None
  /\ evaluate cats_missing length_model 5 false = Raise (KeyError "q2").
Proof.
  assert (Hin : In ("q2", "stocks")%string (items (queries cats_missing)))
    by (simpl; tauto).
  split; [exact Hin|]. split; [reflexivity|].
  destruct (evaluate_missing_ground_truth_raises cats_missing length_model 5
              false "q2" "stocks" Hin eq_refl) as [_ H].
  apply (H [("q1", "what kind of animal is a cat")]%string
           [("q3", "mammals")]%string); reflexivity.
Defined.

(** C5.  With an empty [queries] mapping the evaluator returns the empty
    result sequence; the aggregation of an empty sequence does not return a
    number: the frame built from no record has no ['is_hit'] column and the
    column access raises. *)
Theorem evaluate_empty_queries ds m k v :
  queries ds = [] ->
  evaluate ds m k v = Ok []
  /\ hit_rate [] = Raise (KeyError "is_hit")
  /\ forall x, hit_rate [] <> Ok x.
Proof.
  intros Hq. unfold evaluate. rewrite Hq. cbn.
  repeat split. intros x. discriminate.
Qed.

Lemma evaluate_empty_queries_witness :
  queries no_queries = []
  /\ evaluate no_queries length_model 5 false = Ok [].
Proof.
  split; [reflexivity|].
  apply (evaluate_empty_queries no_queries length_model 5 false eq_refl).
Defined.

Lemma Forall2_Forall_r {A B : Type} (R : A -> B -> Prop) (P : B -> Prop) xs ys :
  Forall2 R xs ys -> (forall x y, R x y -> P y) -> Forall P ys.
Proof.
  intros H HP. induction H; constructor; eauto.
Qed.

Lemma record_for_retrieved ds m k it rec :
  record_for (retriever_of ds m k) (relevant_docs ds) it = Ok rec ->
  retrieved rec = retrieved_ids ds m k (snd it)
  /\ is_hit rec = contains (expected rec) (retrieved rec)
  /\ ground_truth (relevant_docs ds) (fst it) = Some (expected rec).
Proof.
  intros H.
  destruct (record_for_inv _ _ _ H) as [d [rest [_ [Hgt Heq]]]].
  rewrite Heq in H. injection H as <-. cbn. auto.
Qed.

(** C7.  A ground truth that is not a corpus identifier does not stop the
    evaluator: it returns as soon as every query has a ground truth, every
    retrieved identifier is a corpus identifier, and the record of a query
    whose ground truth is outside the corpus has hit flag false. *)
Theorem evaluate_absent_ground_truth_misses ds m k v :
  has_ground_truth ds = true ->
  exists results,
    evaluate ds m k v = Ok results
    /\ Forall (fun r => incl (retrieved r) (keys (corpus ds))) results
    /\ (forall i query_id q d,
           nth_error (items (queries ds)) i = Some (query_id, q) ->
           ground_truth (relevant_docs ds) query_id = Some d ->
           ~ In d (keys (corpus ds)) ->
           exists r, nth_error results i = Some r
                     /\ expected r = d /\ is_hit r = false).
Proof.
  intros Hwf.
  destruct (evaluate_returns ds m k v Hwf) as [results [Hev Hrec]].
  exists results. split; [assumption|]. split.
  - apply (Forall2_Forall_r _ Hrec). intros it rec Hit x Hx.
    destruct (record_for_retrieved _ _ _ _ Hit) as [Hret _].
    rewrite Hret in Hx. eapply retrieved_ids_in_corpus; eassumption.
  - intros i query_id q d Hi Hgt Hnot.
    destruct (Forall2_nth_error_l _ Hrec Hi) as [r [Hr Hit]].
    destruct (record_for_retrieved _ _ _ _ Hit) as [Hret [Hhit Hexp]].
    cbn [fst snd] in *. rewrite Hgt in Hexp. injection Hexp as Hexp.
    exists r. repeat split; auto.
    rewrite Hhit. destruct (contains (expected r) (retrieved r)) eqn:Hc; auto.
    apply contains_In in Hc. exfalso. apply Hnot.
    rewrite Hexp, Hret in *. eapply retrieved_ids_in_corpus; eassumption.
Qed.

Lemma evaluate_absent_ground_truth_misses_witness :
  has_ground_truth cats_absent = true
  /\ exists results r,
      evaluate cats_absent length_model 5 false = Ok results
      /\ nth_error results 0 = Some r
      /\ expected r = "d3"%string /\ is_hit r = false.
Proof.
  split; [reflexivity|].
  destruct (evaluate_absent_ground_truth_misses cats_absent length_model 5 false
              eq_refl) as [results [Hev [_ H]]].
  destruct (H 0 "q1" "what kind of animal is a cat" "d3")%string
    as [r Hr]; [reflexivity|reflexivity| |].
  - simpl. intros [E|[E|[]]]; discriminate E.
  - exists results, r. split; [exact Hev|exact Hr].
Defined.

(** C9, as stated, fails: with the default [top_k] of 5 on a two-document
    corpus the retrieved sequences have two identifiers. *)
Lemma retrieved_length_below_top_k :
  exists results r,
    evaluate cats length_model default_top_k false = Ok results
    /\ In r results
    /\ List.length (retrieved r) = 2
    /\ Z.of_nat (List.length (retrieved r)) <> default_top_k.
Proof.
  eexists. eexists. split; [reflexivity|].
  split; [left; reflexivity|]. split; [reflexivity|]. discriminate.
Qed.

(** C9, amended.  For a [top_k] of at least 1 the retrieved sequence of every
    record has as many identifiers as the smaller of [top_k] and the size of
    the corpus, hence exactly [top_k] when the corpus holds at least [top_k]
    documents.  With [top_k = 0] the whole corpus is retrieved, and with a
    negative [top_k] nothing is. *)
Theorem retrieved_length_min_top_k_corpus ds m k v :
  has_ground_truth ds = true ->
  exists results,
    evaluate ds m k v = Ok results
    /\ ((1 <= k)%Z ->
        Forall (fun r => Z.of_nat (List.length (retrieved r))
                         = Z.min k (Z.of_nat (List.length (items (corpus ds)))))
               results)
    /\ ((1 <= k <= Z.of_nat (List.length (items (corpus ds))))%Z ->
        Forall (fun r => Z.of_nat (List.length (retrieved r)) = k) results)
    /\ (k = 0%Z ->
        Forall (fun r => List.length (retrieved r)
                         = List.length (items (corpus ds))) results)
    /\ ((k < 0)%Z -> Forall (fun r => retrieved r = []) results).
Proof.
  intros Hwf.
  destruct (evaluate_returns ds m k v Hwf) as [results [Hev Hrec]].
  exists results. split; [assumption|].
  assert (H : Forall (fun r => List.length (retrieved r)
                               = if (k =? 0)%Z then List.length (corpus ds)
                                 else if (k <? 0)%Z then 0
                                 else Nat.min (Z.to_nat k)
                                              (List.length (corpus ds)))
                     results).
  { apply (Forall2_Forall_r _ Hrec). intros it rec Hit.
    destruct (record_for_retrieved _ _ _ _ Hit) as [-> _].
    apply retrieved_ids_length. }
  unfold items.
  repeat split; intros Hk; (eapply Forall_impl; [|exact H]); cbn beta;
    intros r Hr.
  - rewrite Hr.
    destruct (Z.eqb_spec k 0); [lia|]. destruct (Z.ltb_spec k 0); lia.
  - rewrite Hr.
    destruct (Z.eqb_spec k 0); [lia|]. destruct (Z.ltb_spec k 0); lia.
  - rewrite Hr. subst k. reflexivity.
  - destruct (Z.eqb_spec k 0); [lia|]. destruct (Z.ltb_spec k 0); [|lia].
    now destruct (retrieved r).
Qed.

Lemma retrieved_length_min_top_k_corpus_witness :
  has_ground_truth cats = true
  /\ exists results,
      evaluate cats length_model 1 false = Ok results
      /\ Forall (fun r => Z.of_nat (List.length (retrieved r)) = 1%Z) results.
Proof.
  split; [reflexivity|].
  destruct (retrieved_length_min_top_k_corpus cats length_model 1 false eq_refl)
    as [results [Hev [_ [H _]]]].
  exists results. split; [exact Hev|].
  apply H. simpl. lia.
Defined.

(** ** The aggregation *)

Lemma sum_fold s a :
  fold_left (fun acc (b : bool) => if b then (acc + 1)%Z else acc) s a
  = (a + Z.of_nat (List.length (filter (fun b => b) s)))%Z.
Proof.
  revert a. induction s as [|b s IH]; intros a; simpl.
  - lia.
  - rewrite IH. destruct b; simpl; lia.
Qed.

Lemma sum_count s : sum s = Z.of_nat (List.length (filter (fun b => b) s)).
Proof. unfold sum. now rewrite sum_fold. Qed.

Lemma hits_flags results :
  List.length (filter (fun b => b) (map is_hit results)) = hits results.
Proof.
  unfold hits. induction results as [|r rs IH]; simpl; [reflexivity|].
  destruct (is_hit r); simpl; now rewrite IH.
Qed.

Lemma column_is_hit_from_records r rs :
  column_is_hit (from_records (r :: rs)) = Ok (map is_hit (r :: rs)).
Proof.
  unfold column_is_hit, from_records. cbn [columns rows].
  change (contains "is_hit" _) with true. cbv iota.
  now rewrite map_map.
Qed.

Lemma hit_rate_mean results :
  results <> [] -> hit_rate results = Ok (mean (map is_hit results)).
Proof.
  destruct results as [|r rs]; [congruence|]. intros _.
  unfold hit_rate. now rewrite column_is_hit_from_records.
Qed.

Lemma hit_rate_ok_inv results h :
  hit_rate results = Ok h -> results <> [] /\ h = mean (map is_hit results).
Proof.
  destruct results as [|r rs]; [discriminate|].
  rewrite hit_rate_mean by discriminate.
  intros [= <-]. split; [discriminate|reflexivity].
Qed.

Lemma mean_nonempty s :
  s <> [] ->
  mean s = fl (inject_Z (sum s) / inject_Z (Z.of_nat (List.length s))).
Proof. destruct s; [congruence|reflexivity]. Qed.

Lemma hit_rate_count results :
  results <> [] ->
  hit_rate results
  = Ok (fl (inject_Z (Z.of_nat (hits results))
            / inject_Z (Z.of_nat (List.length results)))).
Proof.
  intros Hne. rewrite hit_rate_mean by assumption.
  rewrite mean_nonempty by (destruct results; [congruence|discriminate]).
  now rewrite sum_count, length_map, hits_flags.
Qed.

Lemma hits_monotone r1 r2 :
  Forall2 (fun a b => is_hit a = true -> is_hit b = true) r1 r2 ->
  hits r1 <= hits r2 /\ List.length r1 = List.length r2.
Proof.
  unfold hits. induction 1 as [|a b r1 r2 Hab _ [IH1 IH2]]; simpl; [lia|].
  destruct (is_hit a); [rewrite Hab by reflexivity|destruct (is_hit b)];
    simpl; lia.
Qed.

Lemma fraction_monotone (a b n : nat) :
  a <= b ->
  (inject_Z (Z.of_nat a) / inject_Z (Z.of_nat n)
   <= inject_Z (Z.of_nat b) / inject_Z (Z.of_nat n))%Q.
Proof.
  intros Hab. unfold Qdiv. apply Qmult_le_compat_r.
  - rewrite <- Zle_Qle. lia.
  - apply Qinv_le_0_compat. change 0%Q with (inject_Z 0).
    rewrite <- Zle_Qle. lia.
Qed.

Lemma Forall2_same_source {A B : Type} (R1 R2 : A -> B -> Prop) xs ys zs :
  Forall2 R1 xs ys -> Forall2 R2 xs zs ->
  Forall2 (fun y z => exists x, R1 x y /\ R2 x z) ys zs.
Proof.
  intros H. revert zs.
  induction H as [|x y xs ys Hxy _ IH]; intros zs Hz; inversion Hz; subst.
  - constructor.
  - constructor; [now exists x|now apply IH].
Qed.

(** C6, as stated, fails: [top_k = 0] puts no limit on the retrieved set,
    so going from [top_k = 0] to [top_k = 1] loses the hit of [q1] and the
    hit rate drops from 1 to 1/2. *)
Lemma hit_rate_drops_above_top_k_zero :
  (0 <= 1)%Z
  /\ exists r1 r2 h1 h2,
      evaluate cats length_model 0 false = Ok r1
      /\ evaluate cats length_model 1 false = Ok r2
      /\ hit_rate r1 = Ok (fl h1)
      /\ hit_rate r2 = Ok (fl h2)
      /\ (h1 == 1)%Q /\ (h2 == 1 # 2)%Q
      /\ ~ (h1 <= h2)%Q.
Proof.
  split; [lia|]. do 4 eexists.
  split; [reflexivity|]. split; [reflexivity|].
  split; [reflexivity|]. split; [reflexivity|].
  split; [reflexivity|]. split; [reflexivity|].
  unfold Qle. simpl. lia.
Qed.

(** C6, amended.  On a dataset with at least one query, all with a ground
    truth, raising [top_k] from [k1] to [k2] keeps every hit as soon as [k1]
    is not 0, so the hit rate at [k2] is at least the hit rate at [k1]. *)
Theorem hit_rate_monotone_in_top_k ds m v k1 k2 :
  has_ground_truth ds = true ->
  queries ds <> [] ->
  (k1 <= k2)%Z ->
  k1 <> 0%Z ->
  exists r1 r2 h1 h2,
    evaluate ds m k1 v = Ok r1
    /\ evaluate ds m k2 v = Ok r2
    /\ Forall2 (fun a b => query a = query b
                           /\ (is_hit a = true -> is_hit b = true)) r1 r2
    /\ hit_rate r1 = Ok (fl h1)
    /\ hit_rate r2 = Ok (fl h2)
    /\ (h1 <= h2)%Q.
Proof.
  intros Hwf Hne Hk Hk1.
  destruct (evaluate_returns ds m k1 v Hwf) as [r1 [Hev1 Hrec1]].
  destruct (evaluate_returns ds m k2 v Hwf) as [r2 [Hev2 Hrec2]].
  pose proof (Forall2_same_source Hrec1 Hrec2) as Hpair.
  assert (Hmono : Forall2 (fun a b => query a = query b
                                      /\ (is_hit a = true -> is_hit b = true))
                          r1 r2).
  { eapply Forall2_impl; [|exact Hpair]. cbn beta.
    intros a b [it [Ha Hb]].
    destruct (record_for_inv _ _ _ Ha) as [d [rest [_ [Hgt Ea]]]].
    rewrite Ea in Ha. injection Ha as <-.
    rewrite (record_for_ground_truth _ _ _ Hgt) in Hb. injection Hb as <-.
    cbn [is_hit query]. split; [reflexivity|].
    rewrite !contains_In.
    exact (@retrieved_ids_mono ds m (snd it) k1 k2 d Hk Hk1). }
  assert (Hflags : Forall2 (fun a b => is_hit a = true -> is_hit b = true) r1 r2)
    by (eapply Forall2_impl; [|exact Hmono]; cbn beta; tauto).
  destruct (hits_monotone Hflags) as [Hhits Hlen].
  assert (Hne1 : r1 <> []).
  { intros ->. apply Forall2_length in Hrec1. unfold items in Hrec1.
    destruct (queries ds); [congruence|discriminate]. }
  assert (Hne2 : r2 <> []) by (intros ->; destruct r1; [congruence|discriminate]).
  do 4 eexists.
  split; [exact Hev1|]. split; [exact Hev2|]. split; [exact Hmono|].
  split; [apply (hit_rate_count Hne1)|]. split; [apply (hit_rate_count Hne2)|].
  rewrite Hlen. now apply fraction_monotone.
Qed.

Lemma hit_rate_monotone_in_top_k_witness :
  has_ground_truth cats = true
  /\ queries cats <> []
  /\ (1 <= 5)%Z
  /\ exists r1 r2 h1 h2,
      evaluate cats length_model 1 false = Ok r1
      /\ evaluate cats length_model 5 false = Ok r2
      /\ hit_rate r1 = Ok (fl h1)
      /\ hit_rate r2 = Ok (fl h2)
      /\ (h1 <= h2)%Q.
Proof.
  assert (Hne : queries cats <> []) by discriminate.
  assert (Hk : (1 <= 5)%Z) by lia.
  assert (Hk1 : 1%Z <> 0%Z) by discriminate.
  split; [reflexivity|]. split; [exact Hne|]. split; [exact Hk|].
  destruct (hit_rate_monotone_in_top_k cats length_model false eq_refl Hne Hk Hk1)
    as [r1 [r2 [h1 [h2 [H1 [H2 [_ [H3 [H4 H5]]]]]]]]].
  exists r1, r2, h1, h2. repeat split; assumption.
Defined.

(** *** Grouping by label *)

Lemma get_add_to_group k v g lbl :
  get (add_to_group k v g) lbl
  = if String.eqb lbl k
    then Some (match get g k with Some old => old ++ [v] | None => [v] end)
    else get g lbl.
Proof.
  induction g as [|[k' vs] g IH]; simpl.
  - reflexivity.
  - destruct (String.eqb_spec k k') as [<-|Hkk']; simpl.
    + destruct (String.eqb lbl k); reflexivity.
    + rewrite IH.
      destruct (String.eqb_spec lbl k) as [Hlk|Hlk].
      * subst lbl.
        destruct (String.eqb_spec k k'); [contradiction|reflexivity].
      * reflexivity.
Qed.

Lemma keys_add_to_group k v g :
  map fst (add_to_group k v g)
  = if existsb (String.eqb k) (map fst g) then map fst g else map fst g ++ [k].
Proof.
  induction g as [|[k' vs] g IH]; simpl; [reflexivity|].
  destruct (String.eqb k k'); simpl; [reflexivity|].
  rewrite IH. destruct (existsb _ _); reflexivity.
Qed.

Lemma existsb_eqb_false k l : existsb (String.eqb k) l = false -> ~ In k l.
Proof.
  intros H Hin.
  assert (Ht : existsb (String.eqb k) l = true)
    by (apply existsb_exists; exists k; split;
        [assumption|apply String.eqb_refl]).
  congruence.
Qed.

Lemma NoDup_keys_add_to_group k v g :
  NoDup (map fst g) -> NoDup (map fst (add_to_group k v g)).
Proof.
  intros H. rewrite keys_add_to_group.
  destruct (existsb _ _) eqn:He; [assumption|].
  apply (Permutation_NoDup (Permutation_cons_append _ _)).
  constructor; [now apply existsb_eqb_false|assumption].
Qed.

Lemma NoDup_keys_group_step rows g :
  NoDup (map fst g) -> NoDup (map fst (fold_left group_step rows g)).
Proof.
  revert g. induction rows as [|r rows IH]; intros g Hg; simpl; [assumption|].
  apply IH. unfold group_step.
  destruct (model r); [now apply NoDup_keys_add_to_group|assumption].
Qed.

Lemma get_group_step rows g lbl :
  get (fold_left group_step rows g) lbl
  = match flags_of lbl rows with
    | [] => get g lbl
    | f :: fs =>
        Some (match get g lbl with
              | Some old => old ++ f :: fs
              | None => f :: fs
              end)
    end.
Proof.
  revert g. induction rows as [|r rows IH]; intros g; simpl; [reflexivity|].
  rewrite IH. unfold flags_of, group_step. cbn [filter].
  destruct (model r) as [k|]; [|reflexivity].
  rewrite get_add_to_group.
  destruct (String.eqb_spec lbl k) as [->|Hne]; cbn [map]; [|reflexivity].
  destruct (map _ (filter _ rows)) as [|f fs], (get g k) as [old|];
    try reflexivity; now rewrite <- app_assoc.
Qed.

Lemma In_get {V : Type} (d : dict V) k v :
  NoDup (map fst d) -> (In (k, v) d <-> get d k = Some v).
Proof.
  induction d as [|[k' v'] d IH]; simpl; intros Hnd.
  - split; [contradiction|discriminate].
  - inversion Hnd as [|? ? Hnotin Hnd']; subst.
    destruct (String.eqb_spec k k') as [->|Hne].
    + split.
      * intros [[= ->]|Hin]; [reflexivity|].
        exfalso. apply Hnotin. now apply (in_map fst) in Hin.
      * intros [= ->]. now left.
    + rewrite <- (IH Hnd'). split.
      * intros [[= <- _]|Hin]; [contradiction|assumption].
      * now right.
Qed.

Lemma insert_by_key_perm g l : Permutation (insert_by_key g l) (g :: l).
Proof.
  induction l as [|h l IH]; simpl; [reflexivity|].
  destruct (String.leb (fst g) (fst h)); [reflexivity|].
  rewrite IH. apply perm_swap.
Qed.

Lemma sort_groups_perm l : Permutation (sort_groups l) l.
Proof.
  induction l as [|g l IH]; simpl; [constructor|].
  rewrite insert_by_key_perm. now constructor.
Qed.

(** The table reported by [groupby('model').mean('is_hit')] has one line per
    label that occurs, and the line of a label holds the mean of the hit
    flags of the rows with that label. *)
Lemma groupby_model_mean_spec df table :
  groupby_model_mean df = Ok table ->
  NoDup (map fst table)
  /\ forall lbl x,
      In (lbl, x) table
      <-> flags_of lbl (rows df) <> [] /\ x = mean (flags_of lbl (rows df)).
Proof.
  unfold groupby_model_mean, groupby_model.
  destruct (contains "model" (columns df)); [|discriminate].
  cbn [bind]. intros [= <-].
  set (groups := fold_left group_step (rows df) []).
  assert (Hnd : NoDup (map fst groups))
    by (apply NoDup_keys_group_step; constructor).
  assert (Hnds : NoDup (map fst (sort_groups groups)))
    by (apply (Permutation_NoDup
                 (Permutation_map fst (Permutation_sym (sort_groups_perm groups))));
        assumption).
  split.
  - now rewrite map_map.
  - intros lbl x. rewrite in_map_iff. split.
    + intros [[k vs] [Heq Hin]]. cbn [fst snd] in Heq.
      injection Heq as Hk Hx. subst k x.
      apply (Permutation_in _ (sort_groups_perm groups)) in Hin.
      apply (In_get _ _ _ Hnd) in Hin. subst groups.
      rewrite get_group_step in Hin. cbn [get] in Hin.
      destruct (flags_of lbl (rows df)); [discriminate|].
      injection Hin as <-. split; [discriminate|reflexivity].
    + intros [Hne ->]. exists (lbl, flags_of lbl (rows df)).
      split; [reflexivity|].
      apply (Permutation_in _ (Permutation_sym (sort_groups_perm groups))).
      apply (In_get _ _ _ Hnd). subst groups.
      rewrite get_group_step. cbn [get].
      destruct (flags_of lbl (rows df)); [congruence|reflexivity].
Qed.

(** *** The summary cell *)

Lemma rows_df_all a b f :
  rows (df_all a b f)
  = labelled "ada" a ++ labelled "bge" b ++ labelled "fine_tuned" f.
Proof.
  unfold df_all, concat, set_model, from_records, labelled.
  cbn [rows flat_map]. now rewrite !map_map, app_nil_r.
Qed.

Lemma add_to_group_fresh k v g :
  existsb (String.eqb k) (map fst g) = false ->
  add_to_group k v g = g ++ [(k, [v])].
Proof.
  induction g as [|[k' vs] g IH]; simpl; [reflexivity|].
  destruct (String.eqb k k'); simpl; [discriminate|].
  intros H. now rewrite IH.
Qed.

Lemma add_to_group_last k v vs g :
  existsb (String.eqb k) (map fst g) = false ->
  add_to_group k v (g ++ [(k, vs)]) = g ++ [(k, vs ++ [v])].
Proof.
  induction g as [|[k' vs'] g IH]; simpl.
  - now rewrite String.eqb_refl.
  - destruct (String.eqb k k'); simpl; [discriminate|].
    intros H. now rewrite IH.
Qed.

Lemma group_step_run_last k rs vs g :
  existsb (String.eqb k) (map fst g) = false ->
  fold_left group_step (labelled k rs) (g ++ [(k, vs)])
  = g ++ [(k, vs ++ map is_hit rs)].
Proof.
  intros Hfresh. revert vs.
  induction rs as [|r rs IH]; intros vs; simpl.
  - now rewrite app_nil_r.
  - unfold group_step at 2. cbn [model record].
    rewrite add_to_group_last by assumption.
    rewrite IH. now rewrite <- app_assoc.
Qed.

Lemma group_step_run k r rs g :
  existsb (String.eqb k) (map fst g) = false ->
  fold_left group_step (labelled k (r :: rs)) g
  = g ++ [(k, map is_hit (r :: rs))].
Proof.
  intros Hfresh. simpl. unfold group_step at 2. cbn [model record].
  rewrite add_to_group_fresh by assumption.
  now rewrite group_step_run_last.
Qed.

Lemma groupby_df_all a b f :
  a <> [] -> b <> [] -> f <> [] ->
  groupby_model_mean (df_all a b f)
  = Ok [("ada", mean (map is_hit a)); ("bge", mean (map is_hit b));
        ("fine_tuned", mean (map is_hit f))]%string.
Proof.
  intros Ha Hb Hf.
  destruct a as [|ra a]; [congruence|].
  destruct b as [|rb b]; [congruence|].
  destruct f as [|rf f]; [congruence|].
  unfold groupby_model_mean, groupby_model.
  change (contains "model" (columns (df_all (ra :: a) (rb :: b) (rf :: f))))
    with true.
  cbv iota. rewrite rows_df_all, !fold_left_app.
  rewrite (@group_step_run "ada" ra a []) by reflexivity.
  rewrite (@group_step_run "bge" rb b) by reflexivity.
  rewrite (@group_step_run "fine_tuned" rf f) by reflexivity.
  reflexivity.
Qed.

(** C3.  The hit rate of a non-empty sequence of records is the number of
    records with a true hit flag divided by the number of records, which is
    the mean of the hit flags.  In the grouped table every label that occurs
    has one line, holding the mean of the hit flags of the rows with that
    label; for the three labelled frames of the notebook the table repeats
    the three hit rates computed frame by frame. *)
Theorem hit_rate_is_mean_of_hit_flags :
  (forall results,
      results <> [] ->
      hit_rate results
      = Ok (fl (inject_Z (Z.of_nat (hits results))
                / inject_Z (Z.of_nat (List.length results))))
      /\ hit_rate results = Ok (mean (map is_hit results)))
  /\ (forall df table,
         groupby_model_mean df = Ok table ->
         NoDup (map fst table)
         /\ forall lbl x,
             In (lbl, x) table
             <-> flags_of lbl (rows df) <> []
                 /\ x = mean (flags_of lbl (rows df)))
  /\ (forall ada_val_results bge_val_results val_results_finetuned
             hit_rate_ada hit_rate_bge hit_rate_finetuned,
         hit_rate ada_val_results = Ok hit_rate_ada ->
         hit_rate bge_val_results = Ok hit_rate_bge ->
         hit_rate val_results_finetuned = Ok hit_rate_finetuned ->
         groupby_model_mean
           (df_all ada_val_results bge_val_results val_results_finetuned)
         = Ok [("ada", hit_rate_ada); ("bge", hit_rate_bge);
               ("fine_tuned", hit_rate_finetuned)]%string).
Proof.
  split; [|split].
  - intros results Hne. split.
    + now apply hit_rate_count.
    + now apply hit_rate_mean.
  - apply groupby_model_mean_spec.
  - intros a b f ha hb hf Ha Hb Hf.
    apply hit_rate_ok_inv in Ha, Hb, Hf.
    destruct Ha as [Ha ->], Hb as [Hb ->], Hf as [Hf ->].
    now apply groupby_df_all.
Qed.

Lemma hit_rate_is_mean_of_hit_flags_witness :
  exists results,
    evaluate cats length_model 1 false = Ok results
    /\ results <> []
    /\ hit_rate results = Ok (fl (1 # 2))
    /\ groupby_model_mean (df_all results results results)
       = Ok [("ada", fl (1 # 2)); ("bge", fl (1 # 2));
             ("fine_tuned", fl (1 # 2))]%string.
Proof.
  eexists. split; [reflexivity|].
  match goal with
  | |- ?rs <> [] /\ _ => assert (Hne : rs <> []) by discriminate
  end.
  split; [exact Hne|].
  destruct hit_rate_is_mean_of_hit_flags as [H1 [_ H3]].
  split.
  - destruct (H1 _ Hne) as [_ ->]. reflexivity.
  - apply H3; destruct (H1 _ Hne) as [_ ->]; reflexivity.
Defined.

(** ** Properties of the training pairs *)

Lemma examples_step_append c rd item acc :
  examples_step c rd item acc = append_step (pair_for c rd) item acc.
Proof.
  destruct item as [query_id query].
  unfold examples_step, append_step, pair_for; simpl.
  destruct (getitem rd query_id) as [docs|e]; simpl; [|reflexivity].
  destruct (getitem0 docs) as [d|e]; simpl; [|reflexivity].
  destruct (getitem c d); reflexivity.
Qed.

Lemma examples_cell_collect ds :
  examples_cell ds
  = collect (pair_for (corpus ds) (relevant_docs ds)) (items (queries ds)).
Proof.
  unfold examples_cell.
  rewrite for_each_ext
    with (body2 := append_step (pair_for (corpus ds) (relevant_docs ds)))
    by (intros; apply examples_step_append).
  rewrite for_each_append_step. now destruct (collect _ _).
Qed.

Lemma pair_for_document c rd item d t :
  ground_truth rd (fst item) = Some d ->
  get c d = Some t ->
  pair_for c rd item = Ok {| texts := [snd item; t] |}.
Proof.
  unfold ground_truth, pair_for, getitem.
  destruct (get rd (fst item)) as [[|d' rest]|]; try discriminate.
  intros [= ->] Ht. cbn. now rewrite Ht.
Qed.

Lemma pair_for_inv c rd item ex :
  pair_for c rd item = Ok ex ->
  exists d rest t,
    get rd (fst item) = Some (d :: rest)
    /\ ground_truth rd (fst item) = Some d
    /\ get c d = Some t
    /\ ex = {| texts := [snd item; t] |}.
Proof.
  unfold pair_for, ground_truth, getitem.
  destruct (get rd (fst item)) as [[|d rest]|]; try discriminate.
  cbn. destruct (get c d) as [t|] eqn:Ht; [|discriminate].
  intros [= <-]. now exists d, rest, t.
Qed.

Lemma pair_for_missing c rd item d :
  ground_truth rd (fst item) = Some d ->
  get c d = None ->
  pair_for c rd item = Raise (KeyError d).
Proof.
  unfold ground_truth, pair_for, getitem.
  destruct (get rd (fst item)) as [[|d' rest]|]; try discriminate.
  intros [= ->] Ht. cbn. now rewrite Ht.
Qed.

Lemma with_documents_Forall c rd its :
  with_documents c rd its = true ->
  Forall (fun it => exists ex, pair_for c rd it = Ok ex) its.
Proof.
  unfold with_documents, has_document. rewrite forallb_forall, Forall_forall.
  intros H it Hin. specialize (H it Hin).
  destruct (ground_truth rd (fst it)) as [d|] eqn:Hgt; [|discriminate].
  destruct (get c d) as [t|] eqn:Ht; [|discriminate].
  eexists. eapply pair_for_document; eassumption.
Qed.

(** C8.  When the ground truth of every query names a corpus document, the
    cell ends without exception and [examples] holds one pair per query, in
    the iteration order of [queries]: the pair at the position of a query is
    made of its text and of the corpus text stored under the first
    identifier of its [relevant_docs] entry.  The later identifiers are not
    read: another [relevant_docs] mapping with the same first elements gives
    the same pairs. *)
Theorem examples_one_pair_per_query ds :
  has_documents ds = true ->
  exists exs,
    examples_cell ds = (exs, None)
    /\ examples ds = exs
    /\ List.length exs = List.length (items (queries ds))
    /\ (forall i query_id q,
           nth_error (items (queries ds)) i = Some (query_id, q) ->
           exists d rest t,
             get (relevant_docs ds) query_id = Some (d :: rest)
             /\ get (corpus ds) d = Some t
             /\ nth_error exs i = Some {| texts := [q; t] |})
    /\ (forall rd',
           (forall query_id q,
               In (query_id, q) (items (queries ds)) ->
               ground_truth rd' query_id
               = ground_truth (relevant_docs ds) query_id) ->
           examples_cell {| corpus := corpus ds;
                            queries := queries ds;
                            relevant_docs := rd' |} = (exs, None)).
Proof.
  intros Hwf.
  pose proof (with_documents_Forall _ _ _ Hwf) as Hall.
  destruct (collect_total _ Hall) as [exs Hc].
  pose proof (collect_ok _ _ Hc) as Hrec.
  exists exs. unfold examples. rewrite examples_cell_collect, Hc.
  split; [reflexivity|]. split; [reflexivity|]. split; [|split].
  - symmetry. exact (Forall2_length Hrec).
  - intros i query_id q Hi.
    destruct (Forall2_nth_error_l _ Hrec Hi) as [ex [Hex Hit]].
    destruct (pair_for_inv _ _ _ Hit) as [d [rest [t [Hget [_ [Ht ->]]]]]].
    now exists d, rest, t.
  - intros rd' Hagree.
    rewrite examples_cell_collect. cbn [corpus queries relevant_docs].
    rewrite <- Hc. apply collect_ext_in.
    intros it Hin. rewrite Forall_forall in Hall.
    destruct (Hall _ Hin) as [ex Hex].
    destruct (pair_for_inv _ _ _ Hex) as [d [rest [t [_ [Hgt [Ht ->]]]]]].
    destruct it as [query_id q]. cbn [fst snd] in *.
    rewrite (pair_for_document _ _ (query_id, q) Hgt Ht).
    apply pair_for_document with (d := d); [|assumption].
    cbn [fst]. now rewrite (Hagree _ _ Hin).
Qed.

Lemma examples_one_pair_per_query_witness :
  has_documents cats = true
  /\ exists exs,
      examples_cell cats = (exs, None)
      /\ List.length exs = 2
      /\ nth_error exs 1
         = Some {| texts := ["stocks"; "stocks rose today"]%string |}.
Proof.
  split; [reflexivity|].
  destruct (examples_one_pair_per_query cats eq_refl)
    as [exs [H1 [_ [H2 [H3 _]]]]].
  exists exs. split; [exact H1|]. split; [exact H2|].
  destruct (H3 1 "q2" "stocks")%string as [d [rest [t [Hd [Ht Hex]]]]];
    [reflexivity|].
  injection Hd as <- _. injection Ht as <-. exact Hex.
Defined.

(** C10.  A query whose ground truth is not a key of [corpus] makes the cell
    raise.  When the ground truths of the queries before it all name corpus
    documents, the exception is the [KeyError] on that identifier and
    [examples] holds the pairs of the earlier queries only: nothing is
    appended for the failing query or for those after it.  The evaluator
    does not look the ground truth up in the corpus, and returns on the same
    dataset as soon as every query has a ground truth. *)
Theorem examples_missing_document_raises ds query_id q d :
  In (query_id, q) (items (queries ds)) ->
  ground_truth (relevant_docs ds) query_id = Some d ->
  get (corpus ds) d = None ->
  (exists e, snd (examples_cell ds) = Some e)
  /\ (forall pre post,
         items (queries ds) = pre ++ (query_id, q) :: post ->
         with_documents (corpus ds) (relevant_docs ds) pre = true ->
         snd (examples_cell ds) = Some (KeyError d)
         /\ List.length (examples ds) = List.length pre
         /\ Forall2 (fun it ex =>
                       exists d' t,
                         ground_truth (relevant_docs ds) (fst it) = Some d'
                         /\ get (corpus ds) d' = Some t
                         /\ ex = {| texts := [snd it; t] |})
                    pre (examples ds))
  /\ (forall m k v,
         has_ground_truth ds = true ->
         exists results, evaluate ds m k v = Ok results).
Proof.
  intros Hin Hgt Hget.
  pose proof (pair_for_missing (corpus ds) (relevant_docs ds) (query_id, q)
                               Hgt Hget) as Hraise.
  split; [|split].
  - rewrite examples_cell_collect.
    exact (collect_some_raise _ _ _ Hin Hraise).
  - intros pre post Hsplit Hpre.
    unfold examples. rewrite examples_cell_collect, Hsplit.
    destruct (@collect_raises _ _ (pair_for (corpus ds) (relevant_docs ds))
                pre (query_id, q) post _
                (with_documents_Forall _ _ _ Hpre) Hraise)
      as [bs [Hc Hbs]].
    rewrite Hc. cbn [fst snd]. split; [reflexivity|]. split.
    + symmetry. exact (Forall2_length Hbs).
    + eapply Forall2_impl; [|exact Hbs]. cbn beta.
      intros it ex Hex.
      destruct (pair_for_inv _ _ _ Hex) as [d' [rest [t [_ [Hd [Ht ->]]]]]].
      now exists d', t.
  - intros m k v Hwf.
    destruct (evaluate_returns ds m k v Hwf) as [results [Hev _]].
    now exists results.
Qed.

Lemma examples_missing_document_raises_witness :
  In ("q1", "what kind of animal is a cat")%string (items (queries cats_absent))
  /\ ground_truth (relevant_docs cats_absent) "q1" = Some "d3"%string
  /\ get (corpus cats_absent) "d3" = None
  /\ snd (examples_cell cats_absent) = Some (KeyError "d3")
  /\ examples cats_absent = []
  /\ exists results, evaluate cats_absent length_model 5 false = Ok results.
Proof.
  assert (Hin : In ("q1", "what kind of animal is a cat")%string
                   (items (queries cats_absent))) by (simpl; tauto).
  split; [exact Hin|]. split; [reflexivity|]. split; [reflexivity|].
  destruct (examples_missing_document_raises cats_absent
              "q1" "what kind of animal is a cat" Hin eq_refl eq_refl)
    as [_ [H1 H2]].
  destruct (H1 [] [("q2", "stocks")]%string eq_refl eq_refl) as [He [Hlen _]].
  split; [exact He|]. split.
  - destruct (examples cats_absent); [reflexivity|discriminate Hlen].
  - exact (H2 length_model 5%Z false eq_refl).
Defined.


(** ** Further properties of the evaluator *)

Lemma collect_app {A B : Type} (f : A -> result B) xs ys :
  collect f (xs ++ ys)
  = match collect f xs with
    | (bs, None) => let (cs, e) := collect f ys in (bs ++ cs, e)
    | (bs, Some e) => (bs, Some e)
    end.
Proof.
  induction xs as [|x xs IH]; simpl.
  - now destruct (collect f ys).
  - destruct (f x) as [b|e]; [|reflexivity].
    rewrite IH. destruct (collect f xs) as [bs [e|]]; [reflexivity|].
    now destruct (collect f ys).
Qed.

Lemma collect_length {A B : Type} (f : A -> result B) xs :
  List.length (fst (collect f xs)) <= List.length xs
  /\ (snd (collect f xs) = None
      <-> List.length (fst (collect f xs)) = List.length xs).
Proof.
  induction xs as [|x xs [IH1 IH2]]; simpl.
  - split; [lia|tauto].
  - destruct (f x) as [b|e]; simpl.
    + destruct (collect f xs) as [bs e]; simpl in *.
      split; [lia|]. rewrite IH2. split; lia.
    + split; [lia|]. split; discriminate.
Qed.

Lemma collect_raise_inv {A B : Type} (f : A -> result B) xs e :
  snd (collect f xs) = Some e ->
  exists pre x post,
    xs = pre ++ x :: post
    /\ Forall (fun y => exists b, f y = Ok b) pre
    /\ f x = Raise e.
Proof.
  induction xs as [|x xs IH]; simpl; [discriminate|].
  destruct (f x) as [b|e0] eqn:Hx.
  - destruct (collect f xs) as [bs e1]; simpl in *. intros He.
    destruct (IH He) as [pre [y [post [-> [Hpre Hy]]]]].
    exists (x :: pre), y, post. split; [reflexivity|].
    split; [|assumption]. constructor; [now exists b|assumption].
  - simpl. intros [= ->]. exists [], x, xs.
    split; [reflexivity|]. split; [constructor|assumption].
Qed.

Lemma record_for_empty r rd item :
  get rd (fst item) = Some [] -> record_for r rd item = Raise IndexError.
Proof.
  intros H. unfold record_for, getitem. now rewrite H.
Qed.

(** X1.  A returned result sequence is never partial: whenever the
    evaluator returns, every query has a non-empty entry in [relevant_docs]
    and the sequence holds one record per query. *)
Theorem evaluate_returns_only_complete ds m k v results :
  evaluate ds m k v = Ok results ->
  has_ground_truth ds = true
  /\ List.length results = List.length (items (queries ds)).
Proof.
  intros Hev.
  pose proof (evaluate_ok_has_ground_truth _ _ _ _ Hev) as Hwf.
  split; [assumption|].
  destruct (evaluate_returns ds m k v Hwf) as [results' [Hev' Hrec]].
  rewrite Hev in Hev'. injection Hev' as <-.
  symmetry. exact (Forall2_length Hrec).
Qed.

Lemma evaluate_returns_only_complete_witness :
  exists results,
    evaluate cats length_model 5 false = Ok results
    /\ has_ground_truth cats = true
    /\ List.length results = 2.
Proof.
  eexists. split; [reflexivity|].
  exact (@evaluate_returns_only_complete cats length_model 5 false _ eq_refl).
Defined.

(** X3.  A query whose [relevant_docs] entry is the empty list makes the
    evaluator raise; when the queries before it all have a ground truth the
    exception is the [IndexError] of the access to element 0. *)
Theorem evaluate_empty_entry_raises ds m k v query_id q :
  In (query_id, q) (items (queries ds)) ->
  get (relevant_docs ds) query_id = Some [] ->
  (exists e, evaluate ds m k v = Raise e)
  /\ (forall pre post,
         items (queries ds) = pre ++ (query_id, q) :: post ->
         with_ground_truth (relevant_docs ds) pre = true ->
         evaluate ds m k v = Raise IndexError).
Proof.
  intros Hin Hget.
  pose proof (record_for_empty (retriever_of ds m k) (relevant_docs ds)
                               (query_id, q) Hget) as Hraise.
  split.
  - rewrite evaluate_collect.
    destruct (collect_some_raise _ _ _ Hin Hraise) as [e He].
    destruct (collect _ _) as [rs e']; simpl in He. subst e'. now exists e.
  - intros pre post Hsplit Hpre.
    rewrite evaluate_collect, Hsplit.
    destruct (@collect_raises _ _ (record_for (retriever_of ds m k)
                                              (relevant_docs ds))
                pre (query_id, q) post _
                (@with_ground_truth_Forall _ _ _ Hpre) Hraise)
      as [bs [Hc _]].
    now rewrite Hc.
Qed.

Lemma evaluate_empty_entry_raises_witness :
  In ("q2", "stocks")%string (items (queries cats_empty_entry))
  /\ get (relevant_docs cats_empty_entry) "q2" = Some []
  /\ evaluate cats_empty_entry length_model 5 false = Raise IndexError.
Proof.
  assert (Hin : In ("q2", "stocks")%string (items (queries cats_empty_entry)))
    by (simpl; tauto).
  split; [exact Hin|]. split; [reflexivity|].
  destruct (evaluate_empty_entry_raises cats_empty_entry length_model 5
              false "q2" "stocks" Hin eq_refl) as [_ H].
  apply (H [("q1", "what kind of animal is a cat")]%string
           [("q3", "mammals")]%string); reflexivity.
Defined.

(** X4.  The records of a query do not depend on the other queries:
    evaluating a queries mapping made of two parts gives the records of the
    first part followed by those of the second, and raises what the first
    part raises, else what the second raises. *)
Theorem evaluate_queries_app c rd qs1 qs2 m k v :
  evaluate {| corpus := c; queries := qs1 ++ qs2; relevant_docs := rd |} m k v
  = match evaluate {| corpus := c; queries := qs1; relevant_docs := rd |} m k v
    with
    | Ok r1 =>
        match evaluate {| corpus := c; queries := qs2; relevant_docs := rd |}
                       m k v with
        | Ok r2 => Ok (r1 ++ r2)
        | Raise e => Raise e
        end
    | Raise e => Raise e
    end.
Proof.
  rewrite !evaluate_collect. cbn [queries relevant_docs items].
  change (retriever_of {| corpus := c; queries := qs1 ++ qs2;
                          relevant_docs := rd |} m k)
    with (retriever_of {| corpus := c; queries := qs1;
                          relevant_docs := rd |} m k).
  change (retriever_of {| corpus := c; queries := qs2;
                          relevant_docs := rd |} m k)
    with (retriever_of {| corpus := c; queries := qs1;
                          relevant_docs := rd |} m k).
  unfold items. rewrite collect_app.
  destruct (collect _ qs1) as [bs [e|]]; [reflexivity|].
  destruct (collect _ qs2) as [cs [e|]]; reflexivity.
Qed.

Lemma record_for_fields r rd its rs :
  Forall2 (fun it rec => record_for r rd it = Ok rec) its rs ->
  map query rs = map fst its
  /\ map (fun rec => Some (expected rec)) rs
     = map (fun it => ground_truth rd (fst it)) its.
Proof.
  induction 1 as [|it rec its rs Hit _ [IH1 IH2]]; simpl; [now split|].
  destruct (record_for_inv _ _ _ Hit) as [d [rest [_ [Hgt Heq]]]].
  rewrite Heq in Hit. injection Hit as <-. cbn [query expected].
  now rewrite IH1, IH2, Hgt.
Qed.

Lemma has_ground_truth_fields ds m k v results :
  evaluate ds m k v = Ok results ->
  map query results = keys (queries ds)
  /\ map (fun r => Some (expected r)) results
     = map (fun it => ground_truth (relevant_docs ds) (fst it))
           (items (queries ds)).
Proof.
  intros Hev.
  pose proof (evaluate_ok_has_ground_truth _ _ _ _ Hev) as Hwf.
  destruct (evaluate_returns ds m k v Hwf) as [results' [Hev' Hrec]].
  rewrite Hev in Hev'. injection Hev' as <-.
  exact (@record_for_fields _ _ _ _ Hrec).
Qed.

(** X5.  The [query] and [expected] columns do not depend on the provider,
    on [top_k] or on the verbosity flag: two runs on the same dataset that
    both return give records that agree on both fields position by position,
    so the frames of several providers line up query by query. *)
Theorem evaluate_fields_provider_independent ds m1 k1 v1 m2 k2 v2 r1 r2 :
  evaluate ds m1 k1 v1 = Ok r1 ->
  evaluate ds m2 k2 v2 = Ok r2 ->
  List.length r1 = List.length r2
  /\ map query r1 = map query r2
  /\ map expected r1 = map expected r2.
Proof.
  intros H1 H2.
  destruct (has_ground_truth_fields _ _ _ _ H1) as [Hq1 He1].
  destruct (has_ground_truth_fields _ _ _ _ H2) as [Hq2 He2].
  assert (Hq : map query r1 = map query r2) by congruence.
  split; [|split; [assumption|]].
  - rewrite <- (length_map query r1), Hq. apply length_map.
  - rewrite <- He2 in He1. clear - He1.
    revert r2 He1. induction r1 as [|a r1 IH]; intros [|b r2] H; simpl in *;
      try discriminate H.
    + reflexivity.
    + injection H as Hab H. rewrite Hab. f_equal. now apply IH.
Qed.

Lemma evaluate_fields_provider_independent_witness :
  exists r1 r2,
    evaluate cats length_model 1 false = Ok r1
    /\ evaluate cats length_model 5 true = Ok r2
    /\ map retrieved r1 <> map retrieved r2
    /\ map expected r1 = map expected r2.
Proof.
  eexists. eexists.
  split; [reflexivity|]. split; [reflexivity|]. split; [discriminate|].
  exact (proj2 (proj2 (@evaluate_fields_provider_independent
                         cats length_model 1 false length_model 5 true
                         _ _ eq_refl eq_refl))).
Defined.

(** ** Further properties of the aggregation *)

Lemma hits_le_length results : hits results <= List.length results.
Proof. unfold hits. apply filter_length_le. Qed.

Lemma hits_all results :
  hits results = List.length results
  <-> Forall (fun r => is_hit r = true) results.
Proof.
  unfold hits. induction results as [|r rs IH]; simpl.
  - split; [constructor|reflexivity].
  - pose proof (filter_length_le is_hit rs) as Hle.
    destruct (is_hit r) eqn:Hr; simpl.
    + split.
      * intros H. constructor; [assumption|]. apply IH. lia.
      * intros H. inversion H; subst. f_equal. now apply IH.
    + split; [lia|]. intros H. inversion H; subst. congruence.
Qed.

Lemma hits_none results :
  hits results = 0 <-> Forall (fun r => is_hit r = false) results.
Proof.
  unfold hits. induction results as [|r rs IH]; simpl.
  - split; [constructor|reflexivity].
  - destruct (is_hit r) eqn:Hr; simpl.
    + split; [discriminate|]. intros H. inversion H; subst. congruence.
    + rewrite IH. split.
      * intros H. now constructor.
      * intros H. now inversion H.
Qed.

Lemma hits_perm r1 r2 : Permutation r1 r2 -> hits r1 = hits r2.
Proof.
  unfold hits. induction 1 as [|x l l' _ IH|x y l|l l' l'' _ IH1 _ IH2]; simpl.
  - reflexivity.
  - destruct (is_hit x); simpl; now rewrite IH.
  - destruct (is_hit x), (is_hit y); reflexivity.
  - congruence.
Qed.

Lemma fraction_bounds (a n : nat) :
  a <= S n ->
  let h := (inject_Z (Z.of_nat a) / inject_Z (Z.of_nat (S n)))%Q in
  (0 <= h)%Q /\ (h <= 1)%Q
  /\ ((h == 1)%Q <-> a = S n) /\ ((h == 0)%Q <-> a = 0).
Proof.
  intros Ha h.
  assert (Hpos : (0 < inject_Z (Z.of_nat (S n)))%Q).
  { change 0%Q with (inject_Z 0). rewrite <- Zlt_Qlt. lia. }
  assert (Hnz : ~ (inject_Z (Z.of_nat (S n)) == 0)%Q).
  { intros E. rewrite E in Hpos. now apply Qlt_irrefl in Hpos. }
  assert (Hmul : (h * inject_Z (Z.of_nat (S n)) == inject_Z (Z.of_nat a))%Q).
  { subst h. rewrite Qmult_comm. now apply Qmult_div_r. }
  repeat split.
  - subst h. apply Qle_shift_div_l; [assumption|].
    rewrite Qmult_0_l. change 0%Q with (inject_Z 0). rewrite <- Zle_Qle. lia.
  - subst h. apply Qle_shift_div_r; [assumption|].
    rewrite Qmult_1_l. rewrite <- Zle_Qle. lia.
  - intros E. rewrite E, Qmult_1_l in Hmul.
    apply (proj1 (inject_Z_injective _ _)) in Hmul. lia.
  - intros ->. subst h. now apply Qmult_inv_r.
  - intros E. rewrite E, Qmult_0_l in Hmul.
    change 0%Q with (inject_Z 0) in Hmul.
    apply (proj1 (inject_Z_injective _ _)) in Hmul. lia.
  - intros ->. subst h. unfold Qdiv. apply Qmult_0_l.
Qed.

(** X6.  The hit rate of a non-empty sequence of records lies between 0 and
    1; it is 1 exactly when every record is a hit and 0 exactly when none
    is. *)
Theorem hit_rate_bounds results :
  results <> [] ->
  exists h,
    hit_rate results = Ok (fl h)
    /\ (0 <= h)%Q /\ (h <= 1)%Q
    /\ ((h == 1)%Q <-> Forall (fun r => is_hit r = true) results)
    /\ ((h == 0)%Q <-> Forall (fun r => is_hit r = false) results).
Proof.
  intros Hne. eexists. split; [now apply hit_rate_count|].
  destruct results as [|r rs]; [congruence|].
  pose proof (hits_le_length (r :: rs)) as Hle.
  cbn [List.length] in *.
  destruct (fraction_bounds Hle) as [H0 [H1 [Hall Hnone]]].
  split; [exact H0|]. split; [exact H1|]. split.
  - rewrite Hall. apply (hits_all (r :: rs)).
  - rewrite Hnone. apply hits_none.
Qed.

Lemma hit_rate_bounds_witness :
  exists results h,
    evaluate cats length_model 5 false = Ok results
    /\ hit_rate results = Ok (fl h)
    /\ (0 <= h)%Q /\ (h <= 1)%Q.
Proof.
  pose (rs := match evaluate cats length_model 5 false with
              | Ok rs => rs
              | Raise _ => []
              end).
  assert (Hne : rs <> []) by (cbv; discriminate).
  destruct (hit_rate_bounds Hne) as [h [Hh [H0 [H1 _]]]].
  exists rs, h. split; [reflexivity|].
  split; [exact Hh|]. split; [exact H0|exact H1].
Defined.

(** X7.  The hit rate depends on the records only through their hit flags
    and not on their order: reordering the result sequence leaves it
    unchanged (and it raises on both sides when the sequence is empty). *)
Theorem hit_rate_permutation r1 r2 :
  Permutation r1 r2 -> hit_rate r1 = hit_rate r2.
Proof.
  intros Hp.
  destruct r1 as [|a r1].
  - apply Permutation_nil in Hp. now subst.
  - assert (Hne2 : r2 <> []).
    { intros ->. apply Permutation_sym, Permutation_nil in Hp. discriminate. }
    rewrite (@hit_rate_count (a :: r1)) by discriminate.
    rewrite (hit_rate_count Hne2).
    now rewrite (hits_perm Hp), (Permutation_length Hp).
Qed.

Lemma hit_rate_permutation_witness :
  exists a b,
    evaluate cats length_model 1 false = Ok [a; b]
    /\ is_hit a <> is_hit b
    /\ hit_rate [a; b] = hit_rate [b; a].
Proof.
  eexists. eexists. split; [reflexivity|]. split; [discriminate|].
  apply hit_rate_permutation. apply perm_swap.
Defined.

(** ** Further properties of the training pairs *)

Lemma pair_for_raise_inv c rd item e :
  pair_for c rd item = Raise e ->
  (get rd (fst item) = None /\ e = KeyError (fst item))
  \/ (get rd (fst item) = Some [] /\ e = IndexError)
  \/ (exists d, ground_truth rd (fst item) = Some d
                /\ get c d = None /\ e = KeyError d).
Proof.
  unfold pair_for, ground_truth, getitem.
  destruct (get rd (fst item)) as [[|d rest]|]; cbn.
  - intros [= <-]. right. now left.
  - destruct (get c d) eqn:Hd; [discriminate|].
    intros [= <-]. right. right. now exists d.
  - intros [= <-]. now left.
Qed.

Lemma has_documents_ground_truth ds :
  has_documents ds = true -> has_ground_truth ds = true.
Proof.
  unfold has_documents, with_documents, has_ground_truth, with_ground_truth.
  rewrite !forallb_forall. intros H it Hin. specialize (H it Hin).
  unfold has_document in H.
  now destruct (ground_truth (relevant_docs ds) (fst it)).
Qed.

(** X8.  The training-pair cell ends without exception exactly when the
    ground truth of every query names a corpus document.  [examples] never
    holds more pairs than there are queries, and holds one per query exactly
    when no exception was raised. *)
Theorem examples_cell_returns_iff ds :
  (snd (examples_cell ds) = None <-> has_documents ds = true)
  /\ List.length (examples ds) <= List.length (items (queries ds))
  /\ (snd (examples_cell ds) = None
      <-> List.length (examples ds) = List.length (items (queries ds))).
Proof.
  unfold examples. rewrite examples_cell_collect.
  split; [|apply collect_length].
  split.
  - intros Hnone.
    destruct (collect _ _) as [exs e] eqn:Hc. simpl in Hnone. subst e.
    apply collect_ok in Hc.
    unfold has_documents, with_documents. apply forallb_forall.
    intros it Hin. destruct (In_nth_error _ _ Hin) as [i Hi].
    destruct (Forall2_nth_error_l _ Hc Hi) as [ex [_ Hex]].
    destruct (pair_for_inv _ _ _ Hex) as [d [rest [t [_ [Hgt [Ht _]]]]]].
    unfold has_document. now rewrite Hgt, Ht.
  - intros Hwf.
    destruct (collect_total _ (with_documents_Forall _ _ _ Hwf)) as [exs Hc].
    now rewrite Hc.
Qed.

Lemma examples_cell_returns_iff_witness :
  has_documents cats = true
  /\ snd (examples_cell cats) = None
  /\ has_documents cats_absent = false
  /\ snd (examples_cell cats_absent) <> None
  /\ List.length (examples cats_absent)
     < List.length (items (queries cats_absent)).
Proof.
  destruct (examples_cell_returns_iff cats) as [[_ H1] _].
  destruct (examples_cell_returns_iff cats_absent) as [[H2 _] [Hle Hlen]].
  split; [reflexivity|]. split; [exact (H1 eq_refl)|].
  split; [reflexivity|].
  assert (Hsome : snd (examples_cell cats_absent) <> None).
  { intros H. apply H2 in H. discriminate H. }
  split; [exact Hsome|].
  destruct (Nat.eq_dec (List.length (examples cats_absent))
                       (List.length (items (queries cats_absent)))) as [E|E].
  - apply (proj2 Hlen) in E. contradiction.
  - lia.
Defined.

(** X9.  When the training-pair cell raises, the exception is the
    [KeyError] on a query identifier without entry in [relevant_docs], the
    [IndexError] of a query whose entry is empty, or the [KeyError] on a
    ground truth that is not a key of [corpus]. *)
Theorem examples_raise_cases ds e :
  snd (examples_cell ds) = Some e ->
  exists query_id q,
    In (query_id, q) (items (queries ds))
    /\ ((get (relevant_docs ds) query_id = None /\ e = KeyError query_id)
        \/ (get (relevant_docs ds) query_id = Some [] /\ e = IndexError)
        \/ (exists d, ground_truth (relevant_docs ds) query_id = Some d
                      /\ get (corpus ds) d = None /\ e = KeyError d)).
Proof.
  rewrite examples_cell_collect. intros Hs.
  destruct (collect_raise_inv _ _ Hs) as [pre [[query_id q] [post [Hsplit [_ Hx]]]]].
  exists query_id, q. split.
  - rewrite Hsplit. apply in_or_app. right. now left.
  - exact (pair_for_raise_inv _ _ _ Hx).
Qed.

Lemma examples_raise_cases_witness :
  snd (examples_cell cats_missing) = Some (KeyError "q2")
  /\ exists query_id q,
      In (query_id, q) (items (queries cats_missing))
      /\ get (relevant_docs cats_missing) query_id = None
      /\ query_id = "q2"%string.
Proof.
  split; [reflexivity|].
  destruct (@examples_raise_cases cats_missing (KeyError "q2") eq_refl)
    as [query_id [q [Hin [[Hget He]|[[_ He]|[d [Hgt [Hd He]]]]]]]].
  - exists query_id, q. split; [exact Hin|]. split; [exact Hget|].
    now injection He.
  - discriminate He.
  - exfalso. injection He as <-.
    simpl in Hin.
    destruct Hin as [E|[E|[E|[]]]]; injection E as <- _; discriminate Hgt.
Defined.

Lemma pair_for_no_entry c rd item :
  get rd (fst item) = None -> pair_for c rd item = Raise (KeyError (fst item)).
Proof.
  intros H. unfold pair_for, getitem. now rewrite H.
Qed.

Lemma pair_for_empty_entry c rd item :
  get rd (fst item) = Some [] -> pair_for c rd item = Raise IndexError.
Proof.
  intros H. unfold pair_for, getitem. now rewrite H.
Qed.

Lemma examples_cell_raises ds pre item post e :
  items (queries ds) = pre ++ item :: post ->
  with_documents (corpus ds) (relevant_docs ds) pre = true ->
  pair_for (corpus ds) (relevant_docs ds) item = Raise e ->
  snd (examples_cell ds) = Some e
  /\ List.length (examples ds) = List.length pre.
Proof.
  intros Hsplit Hpre Hraise.
  unfold examples. rewrite examples_cell_collect, Hsplit.
  destruct (@collect_raises _ _ (pair_for (corpus ds) (relevant_docs ds))
              pre item post _ (with_documents_Forall _ _ _ Hpre) Hraise)
    as [bs [Hc Hbs]].
  rewrite Hc. cbn [fst snd]. split; [reflexivity|].
  symmetry. exact (Forall2_length Hbs).
Qed.

(** X10.  In the training-pair cell a query without entry in
    [relevant_docs] raises the [KeyError] on its identifier and a query
    whose entry is the empty list raises [IndexError], provided the queries
    before it produced their pairs; [examples] then holds one pair for each
    of those earlier queries and nothing more. *)
Theorem examples_missing_entry_raises ds query_id q pre post :
  items (queries ds) = pre ++ (query_id, q) :: post ->
  with_documents (corpus ds) (relevant_docs ds) pre = true ->
  (get (relevant_docs ds) query_id = None ->
   snd (examples_cell ds) = Some (KeyError query_id)
   /\ List.length (examples ds) = List.length pre)
  /\ (get (relevant_docs ds) query_id = Some [] ->
      snd (examples_cell ds) = Some IndexError
      /\ List.length (examples ds) = List.length pre).
Proof.
  intros Hsplit Hpre. split; intros Hget.
  - apply (@examples_cell_raises _ _ _ _ _ Hsplit Hpre).
    exact (pair_for_no_entry (corpus ds) (relevant_docs ds) (query_id, q) Hget).
  - apply (@examples_cell_raises _ _ _ _ _ Hsplit Hpre).
    exact (pair_for_empty_entry (corpus ds) (relevant_docs ds) (query_id, q) Hget).
Qed.

Lemma examples_missing_entry_raises_witness :
  (get (relevant_docs cats_missing) "q2" = None
   /\ snd (examples_cell cats_missing) = Some (KeyError "q2")
   /\ List.length (examples cats_missing) = 1)
  /\ (get (relevant_docs cats_empty_entry) "q2" = Some []
      /\ snd (examples_cell cats_empty_entry) = Some IndexError
      /\ List.length (examples cats_empty_entry) = 1).
Proof.
  split.
  - split; [reflexivity|].
    apply (@examples_missing_entry_raises cats_missing "q2" "stocks"
             [("q1", "what kind of animal is a cat")]%string
             [("q3", "mammals")]%string eq_refl eq_refl).
    reflexivity.
  - split; [reflexivity|].
    apply (@examples_missing_entry_raises cats_empty_entry "q2" "stocks"
             [("q1", "what kind of animal is a cat")]%string
             [("q3", "mammals")]%string eq_refl eq_refl).
    reflexivity.
Defined.

(** X11.  On a dataset where the training-pair cell ends without
    exception, the pairs line up with the records of any run of the evaluator
    that returns: there are as many pairs as records and, at each position,
    the record's [query] is the identifier of the query whose text opens the
    pair, and the second text of the pair is the corpus text stored under the
    record's [expected] identifier. *)
Theorem examples_agree_with_evaluate ds m k v results :
  has_documents ds = true ->
  evaluate ds m k v = Ok results ->
  exists exs,
    examples_cell ds = (exs, None)
    /\ List.length exs = List.length results
    /\ forall i query_id q,
         nth_error (items (queries ds)) i = Some (query_id, q) ->
         exists r t,
           nth_error results i = Some r
           /\ query r = query_id
           /\ get (corpus ds) (expected r) = Some t
           /\ nth_error exs i = Some {| texts := [q; t] |}.
Proof.
  intros Hwf Hev.
  destruct (collect_total _ (with_documents_Forall _ _ _ Hwf)) as [exs Hc].
  pose proof (collect_ok _ _ Hc) as Hpairs.
  destruct (evaluate_returns ds m k v (has_documents_ground_truth ds Hwf))
    as [results' [Hev' Hrec]].
  rewrite Hev in Hev'. injection Hev' as <-.
  exists exs. rewrite examples_cell_collect.
  split; [assumption|]. split.
  - rewrite <- (Forall2_length Hpairs). exact (Forall2_length Hrec).
  - intros i query_id q Hi.
    destruct (Forall2_nth_error_l _ Hrec Hi) as [r [Hr Hit]].
    destruct (Forall2_nth_error_l _ Hpairs Hi) as [ex [Hex Hpair]].
    destruct (record_for_retrieved _ _ _ _ Hit) as [_ [_ Hgt]].
    destruct (record_for_inv _ _ _ Hit) as [d0 [rest0 [_ [_ Heq]]]].
    assert (Hq : query r = query_id).
    { rewrite Heq in Hit. now injection Hit as <-. }
    destruct (pair_for_inv _ _ _ Hpair) as [d [rest [t [_ [Hgt' [Ht ->]]]]]].
    cbn [fst snd] in *. rewrite Hgt in Hgt'. injection Hgt' as <-.
    exists r, t. repeat split; assumption.
Qed.

Lemma examples_agree_with_evaluate_witness :
  has_documents cats = true
  /\ exists results exs,
      evaluate cats length_model 1 false = Ok results
      /\ examples_cell cats = (exs, None)
      /\ List.length exs = List.length results.
Proof.
  split; [reflexivity|]. eexists.
  destruct (@examples_agree_with_evaluate cats length_model 1 false _
              eq_refl eq_refl) as [exs [H1 [H2 _]]].
  exists exs. split; [reflexivity|]. split; [exact H1|exact H2].
Defined.
